(** * ST3215 serial bus servos: bus manager and servo controller

    A shallow embedding of [st3215_bus.py] (class [ST3215Bus]) and
    [st3215_servo.py] (class [ST3215Servo]), and the properties of the
    retry loop, the position cache, the travel limits and the thermal guard.

    The Python objects are records, the third-party [st3215] driver is an
    interface ([Driver]) over an abstract world, and every method is a
    computation in a small monad whose outcomes are: the method returns, it
    raises an exception, or it blocks for ever on [self.lock].  Effects that
    leave the process (driver calls, [time.sleep], log records at warning and
    error level, [printer.invoke_shutdown]) and the uses of the lock are
    appended to a trace.  Log records at info and debug level are left out.

    Modelled: [ST3215Bus] without [list_servos], [is_moving], [set_speed]
    and [set_acceleration]; [ST3215Servo] without the command handlers and
    [_handle_ready].  Integers are [Z].  The times of the poll timer
    ([eventtime], [last_status_update], [status_update_interval]) are Python
    floats, that is IEEE 754 binary64 numbers, and so they are here: [float]
    with the operations of [PrimFloat], which round as the interpreter
    does. *)

From Stdlib Require Import PrimFloat ZArith QArith String List Bool Lia.
From stdpp Require Import base option gmap strings.

Open Scope Z_scope.

(** A decimal float literal stands for the nearest binary64 number, as it
    does in Python. *)
Set Warnings "-inexact-float".

(* ================================================================= *)
(** ** Messages, exceptions, effects *)

(** The [operation_name] strings built by the callers of
    [_execute_with_retry], kept as the values they are formatted from. *)
Inductive opname :=
| OpMoveTo (servo_id position : Z)        (* f"MoveTo(servo={servo_id}, pos={position})" *)
| OpReadPosition (servo_id : Z)           (* f"ReadPosition(servo={servo_id})" *)
| OpStartServo (servo_id : Z)             (* f"StartServo(servo={servo_id})" *)
| OpStopServo (servo_id : Z).             (* f"StopServo(servo={servo_id})" *)

(** Formatted messages ([str(e)] and log texts), kept structured. *)
Inductive msg :=
| MText (s : string)
  (* the text of an exception raised inside the driver *)
| MNoHandle
  (* AttributeError: [self.st3215] is [None] *)
| MConnectFailed (port : string) (cause : msg)
  (* f"Failed to connect to {self.serial_port}: {e}" *)
| MAttemptFailed (op : opname) (attempt_no max_retries : nat) (cause : msg)
  (* f"{operation_name} failed (attempt {attempt + 1}/{max_retries}): {e}" *)
| MFailedAfter (op : opname) (max_retries : nat) (cause : msg)
  (* f"{operation_name} failed after {max_retries} attempts: {e}" *)
| MPingFailed (servo_id : Z) (cause : msg)
  (* f"Failed to ping servo {servo_id}: {e}" *)
| MUsingCached (servo_id cached : Z)
  (* f"Using cached position for servo {servo_id}: {cached}" *)
| MBelowMinimum (position position_min : Z)
  (* f"Position {position} below minimum {self.position_min}" *)
| MAboveMaximum (position position_max : Z)
  (* f"Position {position} above maximum {self.position_max}" *)
| MTemperatureCritical (name : string) (temperature : Z)
  (* f"ST3215 {self.name} temperature critical: {self.cached_temperature}C" *)
| MTemperatureHigh (name : string) (temperature : Z)
  (* f"ST3215 {self.name} temperature high: {self.cached_temperature}C" *)
| MNotFound (servo_id : Z) (port : string)
  (* f"Servo ID {self.servo_id} not found on {self.bus.serial_port}" *)
| MInitFailed (name : string) (cause : msg).
  (* f"Failed to initialize {self.name}: {e}" *)

(** The exception classes that occur.  All of them derive from Python's
    [Exception]; [PyException] stands for a plain [Exception] and for the
    classes the driver raises (and the AttributeError on a [None] handle). *)
Inductive exc :=
| ST3215BusError (m : msg)
| ValueError (m : msg)
| CommandError (m : msg)
| PyException (m : msg).

Definition str (e : exc) : msg :=
  match e with
  | ST3215BusError m | ValueError m | CommandError m | PyException m => m
  end.

(** The calls made on the open driver object [self.st3215]. *)
Inductive primitive :=
| PingServo (servo_id : Z)
| MoveTo (servo_id position speed acceleration : Z)
| ReadPosition (servo_id : Z)
| ReadTemperature (servo_id : Z)
| ReadVoltage (servo_id : Z)
| ReadCurrent (servo_id : Z)
| StartServo (servo_id : Z)
| StopServo (servo_id : Z).

(** What each call gives back; a read may give [None]. *)
Definition reply (p : primitive) : Type :=
  match p with
  | PingServo _ => bool
  | MoveTo _ _ _ _ | StartServo _ | StopServo _ => unit
  | ReadPosition _ | ReadTemperature _ => option Z
  | ReadVoltage _ | ReadCurrent _ => option Q
  end.

(** The [st3215] package as seen from the bus manager: opening the port
    ([import st3215; st3215.ST3215(port)]), closing it
    ([portHandler.closePort()], whose failures the caller swallows) and the
    primitives.  A failure carries the text of the exception raised. *)
Class Driver (World : Type) := {
  open_port : string → World → World * (string + unit);
  close_port : World → World;
  call : ∀ p : primitive, World → World * (string + reply p)
}.

Inductive level := Warning | Error.

Inductive event :=
| Acquire                                (* [self.lock] taken *)
| Release                                (* [self.lock] given back *)
| Open (port : string)                   (* st3215.ST3215(port) *)
| ClosePort                              (* portHandler.closePort() *)
| Call (p : primitive)                   (* a primitive on the open handle *)
| Sleep (seconds : Q)                    (* time.sleep *)
| CacheStore (servo_id position : Z)     (* self._position_cache[servo_id] = position *)
| Log (lvl : level) (m : msg)            (* logging.warning / logging.error *)
| InvokeShutdown (m : msg).              (* self.printer.invoke_shutdown(msg) *)

(* ================================================================= *)
(** ** Data model *)

Inductive handle := ST3215 (port : string).

(** [ST3215Bus] instance attributes.  [lock_held] is the state of the
    non-reentrant [threading.Lock] in [self.lock]. *)
Record Bus := mkBus {
  serial_port : string;
  baudrate : Z;
  st3215 : option handle;
  connected : bool;
  lock_held : bool;
  bus_last_error : option msg;
  reconnect_attempt : nat;
  position_cache : gmap Z Z
}.

(** [ST3215Servo] attributes read from the configuration. *)
Record Config := mkConfig {
  name : string;
  servo_id : Z;
  position_min : Z;
  position_max : Z;
  max_speed : Z;
  max_accel : Z;
  initial_position : option Z;
  status_update_interval : float;           (* config.getfloat *)
  temperature_warning : Z;
  temperature_critical : Z
}.

(** [ST3215Servo] tracked state. *)
Record Servo := mkServo {
  config : Config;
  current_position : option Z;
  target_position : option Z;
  is_moving : bool;
  enabled : bool;
  last_status_update : float;
  cached_temperature : option Z;
  cached_current : option Q;
  cached_voltage : option Q;
  last_error : option msg
}.

(** One servo, the bus object it shares, the device behind the bus, and the
    effects so far (oldest first). *)
Record System (World : Type) := mkSystem {
  world : World;
  bus : Bus;
  servo : Servo;
  trace : list event
}.
Arguments mkSystem {World}.
Arguments world {World}.
Arguments bus {World}.
Arguments servo {World}.
Arguments trace {World}.

(** The checks of [ST3215Servo.__init__]: [config.getint] bounds and the two
    ordering tests that raise [config.error]. *)
Definition config_valid (c : Config) : Prop :=
  0 ≤ servo_id c ≤ 253 ∧
  0 ≤ position_min c ≤ 4095 ∧ 0 ≤ position_max c ≤ 4095 ∧
  0 ≤ max_speed c ≤ 3400 ∧ 0 ≤ max_accel c ≤ 254 ∧
  (∀ p, initial_position c = Some p → position_min c ≤ p ≤ position_max c) ∧
  0 ≤ temperature_warning c ≤ 100 ∧ 0 ≤ temperature_critical c ≤ 100 ∧
  position_min c < position_max c ∧
  temperature_warning c < temperature_critical c.

(** [ST3215Bus.__init__]. *)
Definition new_bus (serial_port : string) (baudrate : Z) : Bus :=
  mkBus serial_port baudrate None false false None 0%nat ∅.

(** The state assignments at the end of [ST3215Servo.__init__].
    [last_status_update] starts as the integer 0, which the subtraction in
    the poll timer converts to the float 0.0. *)
Definition new_servo (c : Config) : Servo :=
  mkServo c None None false false 0%float None None None None.

(** *** Field updates *)

Definition set_st3215 (h : option handle) (b : Bus) : Bus :=
  mkBus (serial_port b) (baudrate b) h (connected b) (lock_held b)
        (bus_last_error b) (reconnect_attempt b) (position_cache b).
Definition set_connected (c : bool) (b : Bus) : Bus :=
  mkBus (serial_port b) (baudrate b) (st3215 b) c (lock_held b)
        (bus_last_error b) (reconnect_attempt b) (position_cache b).
Definition set_lock_held (l : bool) (b : Bus) : Bus :=
  mkBus (serial_port b) (baudrate b) (st3215 b) (connected b) l
        (bus_last_error b) (reconnect_attempt b) (position_cache b).
Definition set_bus_last_error (e : option msg) (b : Bus) : Bus :=
  mkBus (serial_port b) (baudrate b) (st3215 b) (connected b) (lock_held b)
        e (reconnect_attempt b) (position_cache b).
Definition set_reconnect_attempt (n : nat) (b : Bus) : Bus :=
  mkBus (serial_port b) (baudrate b) (st3215 b) (connected b) (lock_held b)
        (bus_last_error b) n (position_cache b).
Definition set_position_cache (m : gmap Z Z) (b : Bus) : Bus :=
  mkBus (serial_port b) (baudrate b) (st3215 b) (connected b) (lock_held b)
        (bus_last_error b) (reconnect_attempt b) m.

Definition set_current_position (p : option Z) (v : Servo) : Servo :=
  mkServo (config v) p (target_position v) (is_moving v) (enabled v)
          (last_status_update v) (cached_temperature v) (cached_current v)
          (cached_voltage v) (last_error v).
Definition set_target_position (p : option Z) (v : Servo) : Servo :=
  mkServo (config v) (current_position v) p (is_moving v) (enabled v)
          (last_status_update v) (cached_temperature v) (cached_current v)
          (cached_voltage v) (last_error v).
Definition set_is_moving (m : bool) (v : Servo) : Servo :=
  mkServo (config v) (current_position v) (target_position v) m (enabled v)
          (last_status_update v) (cached_temperature v) (cached_current v)
          (cached_voltage v) (last_error v).
Definition set_enabled (e : bool) (v : Servo) : Servo :=
  mkServo (config v) (current_position v) (target_position v) (is_moving v) e
          (last_status_update v) (cached_temperature v) (cached_current v)
          (cached_voltage v) (last_error v).
Definition set_last_status_update (t : float) (v : Servo) : Servo :=
  mkServo (config v) (current_position v) (target_position v) (is_moving v)
          (enabled v) t (cached_temperature v) (cached_current v)
          (cached_voltage v) (last_error v).
Definition set_cached_temperature (t : option Z) (v : Servo) : Servo :=
  mkServo (config v) (current_position v) (target_position v) (is_moving v)
          (enabled v) (last_status_update v) t (cached_current v)
          (cached_voltage v) (last_error v).
Definition set_cached_current (c : option Q) (v : Servo) : Servo :=
  mkServo (config v) (current_position v) (target_position v) (is_moving v)
          (enabled v) (last_status_update v) (cached_temperature v) c
          (cached_voltage v) (last_error v).
Definition set_cached_voltage (c : option Q) (v : Servo) : Servo :=
  mkServo (config v) (current_position v) (target_position v) (is_moving v)
          (enabled v) (last_status_update v) (cached_temperature v)
          (cached_current v) c (last_error v).
Definition set_last_error (e : option msg) (v : Servo) : Servo :=
  mkServo (config v) (current_position v) (target_position v) (is_moving v)
          (enabled v) (last_status_update v) (cached_temperature v)
          (cached_current v) (cached_voltage v) e.

(* ================================================================= *)
(** ** The method monad *)

Inductive outcome (World A : Type) :=
| Returns (s : System World) (a : A)     (* normal return *)
| Raises (s : System World) (e : exc)    (* an exception propagates *)
| Hangs (s : System World).              (* blocked for ever on [self.lock] *)
Arguments Returns {World A}.
Arguments Raises {World A}.
Arguments Hangs {World A}.

Definition M (World A : Type) : Type := System World → outcome World A.

(** The state an outcome ends in. *)
Definition final {World A} (o : outcome World A) : System World :=
  match o with Returns s _ | Raises s _ | Hangs s => s end.

Section Monad.
Context {World : Type}.

Definition ret {A} (a : A) : M World A := λ s, Returns s a.

Definition bind {A B} (m : M World A) (k : A → M World B) : M World B :=
  λ s, match m s with
       | Returns s' a => k a s'
       | Raises s' e => Raises s' e
       | Hangs s' => Hangs s'
       end.

Definition raise {A} (e : exc) : M World A := λ s, Raises s e.

(** [try: body / except Exception as e: handler e] (every [exc] is an
    [Exception]); a narrower [except] clause re-raises in its handler. *)
Definition try_except {A} (body : M World A) (handler : exc → M World A)
  : M World A :=
  λ s, match body s with
       | Raises s' e => handler e s'
       | o => o
       end.

Definition gets {A} (f : System World → A) : M World A := λ s, Returns s (f s).

Definition modify_bus (f : Bus → Bus) : M World unit :=
  λ s, Returns (mkSystem (world s) (f (bus s)) (servo s) (trace s)) tt.

Definition modify_servo (f : Servo → Servo) : M World unit :=
  λ s, Returns (mkSystem (world s) (bus s) (f (servo s)) (trace s)) tt.

Definition emit (e : event) : M World unit :=
  λ s, Returns (mkSystem (world s) (bus s) (servo s) (trace s ++ [e])) tt.

(** One step of the device: the world moves on, a failure is raised as an
    exception of the driver. *)
Definition device {A} (f : World → World * (string + A)) : M World A :=
  λ s, match f (world s) with
       | (w, inr a) => Returns (mkSystem w (bus s) (servo s) (trace s)) a
       | (w, inl err) =>
           Raises (mkSystem w (bus s) (servo s) (trace s)) (PyException (MText err))
       end.

End Monad.

#[global] Instance M_ret {World} : MRet (M World) := @ret World.
#[global] Instance M_bind {World} : MBind (M World) := λ A B k m, bind m k.

(* ================================================================= *)
(** ** st3215_bus.py: class ST3215Bus *)

Module ST3215Bus.
Section Bus.
Context {World : Type} `{drv : Driver World}.

Local Abbreviation M := (M World).

(** [with self.lock: body].  The lock is a [threading.Lock]: taking it while
    it is held blocks, also when the holder is the caller itself.  Leaving the
    block by [return] or by an exception gives the lock back. *)
Definition with_lock {A} (body : M A) : M A :=
  λ s, if lock_held (bus s) then Hangs s
       else match (emit Acquire;; modify_bus (set_lock_held true);; body) s with
            | Returns s' a =>
                (modify_bus (set_lock_held false);; emit Release;; ret a) s'
            | Raises s' e =>
                (modify_bus (set_lock_held false);; emit Release;; raise e) s'
            | Hangs s' => Hangs s'
            end.

(** [connect(self)] *)
Definition connect : M unit :=
  with_lock (
    c ← gets (λ s, connected (bus s));
    if c : bool then ret tt
    else
      port ← gets (λ s, serial_port (bus s));
      try_except
        (emit (Open port);;
         device (open_port port);;
         modify_bus (set_st3215 (Some (ST3215 port)));;
         modify_bus (set_connected true);;
         modify_bus (set_reconnect_attempt 0);;
         modify_bus (set_bus_last_error None))
        (λ e,
         modify_bus (set_connected false);;
         modify_bus (set_bus_last_error (Some (str e)));;
         emit (Log Error (MConnectFailed port (str e)));;
         raise (ST3215BusError (MConnectFailed port (str e))))).

(** [disconnect(self)] *)
Definition disconnect : M unit :=
  with_lock (
    h ← gets (λ s, st3215 (bus s));
    match h with
    | Some _ =>
        emit ClosePort;;
        device (λ w, (close_port w, inr tt));;
        modify_bus (set_st3215 None);;
        modify_bus (set_connected false)
    | None => ret tt
    end).

(** [self.st3215.<primitive>(...)]: the body of the closures [_move],
    [_read], [_enable], ... *)
Definition invoke (p : primitive) : M (reply p) :=
  h ← gets (λ s, st3215 (bus s));
  match h with
  | Some _ => emit (Call p);; device (call p)
  | None => raise (PyException MNoHandle)
  end.

(** The [try] block of one iteration of the retry loop. *)
Definition attempt_body (func : primitive) : M (reply func) :=
  c ← gets (λ s, connected (bus s));
  (if c : bool then ret tt else connect);;
  result ← invoke func;
  n ← gets (λ s, reconnect_attempt (bus s));
  (if (0 <? n)%nat then modify_bus (set_reconnect_attempt 0) else ret tt);;
  ret result.

(** The inner [try: ... except: pass] of the retry loop. *)
Definition reconnect : M unit :=
  try_except
    (disconnect;;
     emit (Sleep (1 # 2));;
     connect;;
     n ← gets (λ s, reconnect_attempt (bus s));
     modify_bus (set_reconnect_attempt (n + 1)))
    (λ _, ret tt).

(** The [except Exception as e:] block of the retry loop: either the
    reconnect cycle, or the final [raise]. *)
Definition on_failure (operation_name : opname) (max_retries attempt : nat)
    (e : exc) : M unit :=
  modify_bus (set_bus_last_error (Some (str e)));;
  if (attempt <? max_retries - 1)%nat then
    emit (Log Warning
            (MAttemptFailed operation_name (attempt + 1) max_retries (str e)));;
    reconnect
  else
    emit (Log Error (MFailedAfter operation_name max_retries (str e)));;
    raise (ST3215BusError (MFailedAfter operation_name max_retries (str e))).

(** [for attempt in range(max_retries): try: ... return result / except ...];
    falling out of the loop returns [None]. *)
Fixpoint retry_loop (operation_name : opname) (func : primitive)
    (max_retries : nat) (attempts : list nat) : M (option (reply func)) :=
  match attempts with
  | [] => ret None
  | attempt :: rest =>
      try_except
        (result ← attempt_body func; ret (Some result))
        (λ e,
         on_failure operation_name max_retries attempt e;;
         retry_loop operation_name func max_retries rest)
  end.

(** [_execute_with_retry(self, operation_name, func, max_retries=3)] *)
Definition _execute_with_retry (operation_name : opname) (func : primitive)
    (max_retries : nat) : M (option (reply func)) :=
  retry_loop operation_name func max_retries (seq 0 max_retries).

Definition cache_store (servo_id position : Z) : M unit :=
  emit (CacheStore servo_id position);;
  c ← gets (λ s, position_cache (bus s));
  modify_bus (set_position_cache (<[servo_id := position]> c)).

(** [ping_servo(self, servo_id)] *)
Definition ping_servo (servo_id : Z) : M bool :=
  with_lock (
    try_except
      (c ← gets (λ s, connected (bus s));
       (if c : bool then ret tt else connect);;
       invoke (PingServo servo_id))
      (λ e, emit (Log Error (MPingFailed servo_id (str e)));; ret false)).

(** [move_to(self, servo_id, position, speed, acceleration)] *)
Definition move_to (servo_id position speed acceleration : Z) : M unit :=
  _execute_with_retry (OpMoveTo servo_id position)
                      (MoveTo servo_id position speed acceleration) 3;;
  cache_store servo_id position.

(** [read_position(self, servo_id)] *)
Definition read_position (servo_id : Z) : M (option Z) :=
  try_except
    (r ← _execute_with_retry (OpReadPosition servo_id) (ReadPosition servo_id) 3;
     let pos : option Z := mjoin r in
     match pos with
     | Some p => cache_store servo_id p
     | None => ret tt
     end;;
     ret pos)
    (λ e,
     match e with
     | ST3215BusError _ =>
         cached ← gets (λ s, position_cache (bus s) !! servo_id);
         match cached with
         | Some c => emit (Log Warning (MUsingCached servo_id c))
         | None => ret tt
         end;;
         ret cached
     | _ => raise e
     end).

(** The shared shape of [read_temperature], [read_voltage], [read_current]. *)
Definition read_telemetry (p : primitive) (none : reply p) : M (reply p) :=
  with_lock (
    try_except
      (c ← gets (λ s, connected (bus s));
       (if c : bool then ret tt else connect);;
       invoke p)
      (λ _, ret none)).

Definition read_temperature (servo_id : Z) : M (option Z) :=
  read_telemetry (ReadTemperature servo_id) None.
Definition read_voltage (servo_id : Z) : M (option Q) :=
  read_telemetry (ReadVoltage servo_id) None.
Definition read_current (servo_id : Z) : M (option Q) :=
  read_telemetry (ReadCurrent servo_id) None.

(** [read_status(self, servo_id)]: the dictionary with its three keys. *)
Record Status := mkStatus {
  temperature : option Z;
  voltage : option Q;
  current : option Q
}.

Definition read_status (servo_id : Z) : M Status :=
  t ← read_temperature servo_id;
  v ← read_voltage servo_id;
  c ← read_current servo_id;
  ret (mkStatus t v c).

(** [enable_servo] and [disable_servo] *)
Definition enable_servo (servo_id : Z) : M unit :=
  _execute_with_retry (OpStartServo servo_id) (StartServo servo_id) 3;; ret tt.
Definition disable_servo (servo_id : Z) : M unit :=
  _execute_with_retry (OpStopServo servo_id) (StopServo servo_id) 3;; ret tt.

End Bus.

(** [get_instance(cls, serial_port, baudrate)] on the class attribute
    [_instances], a dictionary from (port, baud rate) to the bus object, here
    to the state of that object.  [_instances_lock] is taken for the body and
    by nothing else. *)
Definition get_instance (serial_port : string) (baudrate : Z)
    (_instances : gmap (string * Z) Bus) : gmap (string * Z) Bus * option Bus :=
  let key := (serial_port, baudrate) in
  let _instances :=
    match _instances !! key with
    | None => <[key := new_bus serial_port baudrate]> _instances
    | Some _ => _instances
    end in
  (_instances, _instances !! key).

End ST3215Bus.

(* ================================================================= *)
(** ** st3215_servo.py: class ST3215Servo *)

Module ST3215Servo.
Section Servo.
Context {World : Type} `{drv : Driver World}.

Local Abbreviation M := (M World).

(** [_validate_position(self, position)] *)
Definition _validate_position (position : Z) : M Z :=
  c ← gets (λ s, config (servo s));
  if position <? position_min c then
    raise (ValueError (MBelowMinimum position (position_min c)))
  else if position >? position_max c then
    raise (ValueError (MAboveMaximum position (position_max c)))
  else ret position.

(** [_check_temperature(self)] *)
Definition _check_temperature : M unit :=
  v ← gets (λ s, servo s);
  match cached_temperature v with
  | None => ret tt
  | Some t =>
      if t >=? temperature_critical (config v) then
        let m := MTemperatureCritical (name (config v)) t in
        emit (Log Error m);;
        emit (InvokeShutdown m);;
        raise (PyException m)
      else if t >=? temperature_warning (config v) then
        emit (Log Warning (MTemperatureHigh (name (config v)) t))
      else ret tt
  end.

(** [max(0, min(hi, v))] *)
Definition clamp (hi v : Z) : Z := Z.max 0 (Z.min hi v).

(** [move_to(self, position, speed=None, accel=None)] *)
Definition move_to (position : Z) (speed accel : option Z) : M unit :=
  position ← _validate_position position;
  _check_temperature;;
  c ← gets (λ s, config (servo s));
  let speed := match speed with None => max_speed c | Some v => v end in
  let accel := match accel with None => max_accel c | Some v => v end in
  let speed := clamp 3400 speed in
  let accel := clamp 254 accel in
  ST3215Bus.move_to (servo_id c) position speed accel;;
  modify_servo (set_target_position (Some position));;
  modify_servo (set_is_moving true).

(** [stop(self)] *)
Definition stop : M unit :=
  c ← gets (λ s, config (servo s));
  pos ← ST3215Bus.read_position (servo_id c);
  match pos with
  | Some pos =>
      modify_servo (set_current_position (Some pos));;
      ST3215Bus.move_to (servo_id c) pos 0 0;;
      modify_servo (set_target_position (Some pos));;
      modify_servo (set_is_moving false)
  | None => ret tt
  end.

(** [enable(self)] and [disable(self)] *)
Definition enable : M unit :=
  c ← gets (λ s, config (servo s));
  ST3215Bus.enable_servo (servo_id c);;
  modify_servo (set_enabled true).

Definition disable : M unit :=
  c ← gets (λ s, config (servo s));
  ST3215Bus.disable_servo (servo_id c);;
  modify_servo (set_enabled false);;
  modify_servo (set_is_moving false).

(** [set_position(self, position)] *)
Definition set_position (position : Z) : M unit :=
  position ← _validate_position position;
  modify_servo (set_current_position (Some position));;
  modify_servo (set_target_position (Some position)).

(** [_handle_connect(self)] *)
Definition _handle_connect : M unit :=
  c ← gets (λ s, config (servo s));
  try_except
    (ST3215Bus.connect;;
     present ← ST3215Bus.ping_servo (servo_id c);
     (if present : bool then ret tt
      else
        port ← gets (λ s, serial_port (bus s));
        raise (CommandError (MNotFound (servo_id c) port)));;
     pos ← ST3215Bus.read_position (servo_id c);
     match pos with
     | Some pos =>
         modify_servo (set_current_position (Some pos));;
         modify_servo (set_target_position (Some pos))
     | None => ret tt
     end)
    (λ e, raise (CommandError (MInitFailed (name c) (str e)))).

(** [_update_status_timer(self, eventtime)].  [if status:] is always taken:
    the dictionary [read_status] builds has three keys.  The test
    [eventtime - self.last_status_update > 5.0] and the sum that is returned
    are float operations. *)
Definition _update_status_timer (eventtime : float) : M float :=
  c ← gets (λ s, config (servo s));
  try_except
    (pos ← ST3215Bus.read_position (servo_id c);
     match pos with
     | Some pos =>
         modify_servo (set_current_position (Some pos));;
         target ← gets (λ s, target_position (servo s));
         match target with
         | Some target => modify_servo (set_is_moving (Z.abs (pos - target) >? 5))
         | None => ret tt
         end
     | None => ret tt
     end;;
     last ← gets (λ s, last_status_update (servo s));
     (if (5 <? eventtime - last)%float then
        status ← ST3215Bus.read_status (servo_id c);
        modify_servo (set_cached_temperature (ST3215Bus.temperature status));;
        modify_servo (set_cached_current (ST3215Bus.current status));;
        modify_servo (set_cached_voltage (ST3215Bus.voltage status));;
        try_except _check_temperature (λ _, ret tt);;
        modify_servo (set_last_status_update eventtime)
      else ret tt);;
     modify_servo (set_last_error None))
    (λ e, modify_servo (set_last_error (Some (str e))));;
  ret (eventtime + status_update_interval c)%float.

(** [_handle_shutdown(self)] *)
Definition _handle_shutdown : M unit :=
  try_except disable (λ _, ret tt).

End Servo.
End ST3215Servo.

(* ================================================================= *)
(** ** A simulated bus *)

(** A device to run the methods on: the port opens or not, the next
    primitives fail as [faults] says (an exhausted list means no fault), and
    the servo answers with its position and temperature. *)
Module Simulated.

Record World := mkWorld {
  port_ok : bool;
  faults : list bool;
  position : Z;
  temperature : Z
}.

Definition answer (p : primitive) (w : World) : World * reply p :=
  match p return World * reply p with
  | PingServo _ => (w, true)
  | MoveTo _ pos _ _ => (mkWorld (port_ok w) (faults w) pos (temperature w), tt)
  | ReadPosition _ => (w, Some (position w))
  | ReadTemperature _ => (w, Some (temperature w))
  | ReadVoltage _ => (w, Some (12 # 1)%Q)
  | ReadCurrent _ => (w, Some (100 # 1)%Q)
  | StartServo _ | StopServo _ => (w, tt)
  end.

#[global] Instance driver : Driver World := {
  open_port _ w :=
    (w, if port_ok w then inr tt else inl "could not open port"%string);
  close_port w := w;
  call p w :=
    match faults w with
    | true :: rest =>
        (mkWorld (port_ok w) rest (position w) (temperature w),
         inl "no status packet"%string)
    | false :: rest =>
        let (w', r) :=
          answer p (mkWorld (port_ok w) rest (position w) (temperature w)) in
        (w', inr r)
    | [] => let (w', r) := answer p w in (w', inr r)
    end
}.

(** A servo on a bus that is connected and idle. *)
Definition connected_bus (cache : gmap Z Z) : Bus :=
  mkBus "/dev/ttyUSB0" 1000000 (Some (ST3215 "/dev/ttyUSB0")) true false None 0 cache.

Definition example_config : Config :=
  mkConfig "st3215 arm" 1 500 3500 3400 254 (Some 2048) 1 70 85.

Definition start (w : World) (b : Bus) (v : Servo) : System World :=
  mkSystem w b v [].

(** The device states without faults. *)
Definition healthy (w : World) : Prop := port_ok w = true ∧ faults w = [].

Definition bench : World := mkWorld true [] 1234 40.

Definition fresh : Servo := new_servo example_config.

(** Nothing goes wrong. *)
Definition at_rest : System World := start bench (connected_bus ∅) fresh.

(** The next two primitives fail, the third answers. *)
Definition two_faults : System World :=
  start (mkWorld true [true; true] 1234 40) (connected_bus ∅) fresh.

(** The next three primitives fail; the cache holds 2048 for servo 1. *)
Definition three_faults : System World :=
  start (mkWorld true [true; true; true] 1234 40)
        (connected_bus {[1 := 2048]}) fresh.

(** The last telemetry round has seen 85 degrees. *)
Definition overheated : System World :=
  start bench (connected_bus ∅) (set_cached_temperature (Some 85) fresh).

(** A servo under way to 3000 whose position can be read, once, and whose
    next three commands fail. *)
Definition move_fails : System World :=
  start (mkWorld true [false; true; true; true] 1234 40) (connected_bus ∅)
        (set_is_moving true (set_target_position (Some 3000) fresh)).

(** The horn has been turned by hand to 100, below [position_min]. *)
Definition out_of_travel : System World :=
  start (mkWorld true [] 100 40) (connected_bus ∅) fresh.

(** The same servo after a poll tick has seen the position 100. *)
Definition strayed : System World :=
  final (ST3215Servo._update_status_timer 1 out_of_travel).

(** The cable has been pulled: the pending read fails and the port cannot
    be opened again. *)
Definition unplugged : System World :=
  start (mkWorld false [true] 1234 40) (connected_bus ∅) fresh.

(** A new bus, not yet connected, on a healthy device. *)
Definition offline : System World :=
  start bench (new_bus "/dev/ttyUSB0" 1000000) fresh.

(** The servo is at 90 degrees, above [temperature_critical]; no telemetry
    has been read yet. *)
Definition feverish : System World :=
  start (mkWorld true [] 1234 90) (connected_bus ∅) fresh.

(** The last telemetry round was at 0.7 s. *)
Definition rounded : System World :=
  start bench (connected_bus ∅) (set_last_status_update 0.7 fresh).

(** A servo polled every 0.1 s. *)
Definition brisk : System World :=
  start bench (connected_bus ∅)
        (new_servo (mkConfig "st3215 arm" 1 500 3500 3400 254 (Some 2048) 0.1 70 85)).

End Simulated.

(* ================================================================= *)
(** ** Vocabulary of the statements *)

Section Predicates.
Context {World : Type}.
Implicit Types s : System World.

Definition idle s : Prop := lock_held (bus s) = false.

Definition wf_bus (b : Bus) : Prop := connected b = true → st3215 b ≠ None.

Definition bus_event (p : primitive) (e : event) : Prop :=
  match e with
  | Call q => q = p
  | CacheStore _ _ | InvokeShutdown _ => False
  | _ => True
  end.

Definition attempt_event (p : primitive) (e : event) : Prop :=
  match e with
  | Call q => q = p
  | CacheStore _ _ | InvokeShutdown _ | Sleep _ | ClosePort => False
  | _ => True
  end.

Definition disconnect_trace (t : list event) : Prop :=
  t = [Acquire; Release] ∨ t = [Acquire; ClosePort; Release].

Definition connect_trace (port : string) (t : list event) : Prop :=
  t = [Acquire; Release] ∨ t = [Acquire; Open port; Release] ∨
  ∃ m, t = [Acquire; Open port; Log Error m; Release].

Definition reconnect_cycle (port : string) (t : list event) : Prop :=
  ∃ d c, t = d ++ [Sleep (1 # 2)] ++ c ∧ disconnect_trace d ∧ connect_trace port c.



Definition steady s s' : Prop :=
  servo s' = servo s ∧
  position_cache (bus s') = position_cache (bus s) ∧
  serial_port (bus s') = serial_port (bus s) ∧
  lock_held (bus s') = false.

Definition extends (P : event → Prop) s s' : Prop :=
  ∃ t, trace s' = trace s ++ t ∧ Forall P t.

(** The state in which the reconnect cycle of a failed attempt starts. *)
Definition noted (lvl : level) (m : msg) (e : exc) s : System World :=
  mkSystem (world s) (set_bus_last_error (Some (str e)) (bus s)) (servo s)
           (trace s ++ [Log lvl m]).

Definition is_sleep (e : event) : bool :=
  match e with Sleep _ => true | _ => false end.

Definition sleeps (t : list event) : nat := length (filter is_sleep t).


(** Events a [read_position] of servo [servo_id] may leave. *)
Definition read_event (servo_id : Z) (e : event) : Prop :=
  match e with
  | Call q => q = ReadPosition servo_id
  | CacheStore i _ => i = servo_id
  | InvokeShutdown _ => False
  | _ => True
  end.

(** The driver calls in a trace, in order. *)
Definition calls (t : list event) : list primitive :=
  omap (λ e, match e with Call p => Some p | _ => None end) t.

(** Appending effects, and the two state changes at the end of
    [ST3215Servo.move_to]. *)
Definition logged (es : list event) s : System World :=
  mkSystem (world s) (bus s) (servo s) (trace s ++ es).

Definition moved (position : Z) s : System World :=
  mkSystem (world s) (bus s)
           (set_is_moving true (set_target_position (Some position) (servo s)))
           (trace s).

Definition in_range (c : Config) (p : Z) : Prop :=
  position_min c ≤ p ≤ position_max c.

(** The invariant of the tracked positions. *)
Definition positions_ok (v : Servo) : Prop :=
  (∀ p, current_position v = Some p → in_range (config v) p) ∧
  (∀ p, target_position v = Some p → in_range (config v) p).

(** The state [move_to] is in after a temperature guard that did not trip. *)
Definition after_guard s : System World :=
  match cached_temperature (servo s) with
  | Some t =>
      if t >=? temperature_warning (config (servo s)) then
        logged [Log Warning (MTemperatureHigh (name (config (servo s))) t)] s
      else s
  | None => s
  end.

(** The speed and acceleration [move_to] hands to the bus. *)
Definition sent_speed (c : Config) (speed : option Z) : Z :=
  ST3215Servo.clamp 3400 (match speed with None => max_speed c | Some v => v end).
Definition sent_accel (c : Config) (accel : option Z) : Z :=
  ST3215Servo.clamp 254 (match accel with None => max_accel c | Some v => v end).

(** A method that works on the bus only: whatever its outcome, the servo
    record is as before. *)
Definition bus_only {A} (m : M World A) : Prop :=
  ∀ s, servo (final (m s)) = servo s.

(** A method that keeps a property of the servo record, whatever its
    outcome. *)
Definition keeps (I : Servo → Prop) {A} (m : M World A) : Prop :=
  ∀ s, I (servo s) → I (servo (final (m s))).

(** The servo record with the configuration [c] and the invariant. *)
Definition within_limits (c : Config) (v : Servo) : Prop :=
  config v = c ∧ positions_ok v.

(** The states [stop] goes through. *)
Definition located (pos : Z) s : System World :=
  mkSystem (world s) (bus s) (set_current_position (Some pos) (servo s)) (trace s).

Definition halted (pos : Z) s : System World :=
  mkSystem (world s) (bus s)
           (set_is_moving false (set_target_position (Some pos) (servo s)))
           (trace s).

(** The servo record after a poll tick has seen [pos] on the bus. *)
Definition observed (pos : option Z) (v : Servo) : Servo :=
  match pos with
  | Some p =>
      let v' := set_current_position (Some p) v in
      match target_position v' with
      | Some target => set_is_moving (Z.abs (p - target) >? 5) v'
      | None => v'
      end
  | None => v
  end.

(** A tracked position after a read that gave [pos]: the value read, or
    the old one when the read gave nothing. *)
Definition stored (pos old : option Z) : option Z :=
  match pos with Some p => Some p | None => old end.

(** Does every use of the port and of the position cache in a trace fall
    between an [Acquire] and the next [Release]?  [held] tells whether the
    lock is held where the trace starts. *)
Fixpoint locked_io (held : bool) (t : list event) : bool :=
  match t with
  | [] => true
  | Acquire :: t' => locked_io true t'
  | Release :: t' => locked_io false t'
  | (Open _ | ClosePort | Call _ | CacheStore _ _) :: t' => held && locked_io held t'
  | _ :: t' => locked_io held t'
  end.

End Predicates.

Section DriverPredicates.
Context {World : Type} `{drv : Driver World}.

(** A bus without faults: a set of device states that no driver call leaves
    and in which every driver call succeeds. *)
Definition fault_free (ok : World → Prop) : Prop :=
  ∀ w, ok w →
    (∀ port, ∃ w', open_port port w = (w', inr tt) ∧ ok w') ∧
    ok (close_port w) ∧
    (∀ p, ∃ w' r, call p w = (w', inr r) ∧ ok w').

End DriverPredicates.

Section MoreVocabulary.
Context {World : Type} `{drv : Driver World}.
Implicit Types s : System World.

(** A state between two calls: the lock is free and a connected bus has its
    driver object. *)
Definition settled s : Prop := idle s ∧ wf_bus (bus s).

(** One call of a primitive whose failure is swallowed: the device moves on
    and the caller gets the answer, or [none]. *)
Definition single_read (p : primitive) (none : reply p) (w : World)
  : World * reply p :=
  match call p w with
  | (w', inr v) => (w', v)
  | (w', inl _) => (w', none)
  end.

(** The servo record after a telemetry round. *)
Definition told (status : ST3215Bus.Status) (v : Servo) : Servo :=
  set_cached_voltage (ST3215Bus.voltage status)
    (set_cached_current (ST3215Bus.current status)
       (set_cached_temperature (ST3215Bus.temperature status) v)).

(** What [_check_temperature] leaves in the trace. *)
Definition guard_events (v : Servo) : list event :=
  match cached_temperature v with
  | Some t =>
      if t >=? temperature_critical (config v) then
        [Log Error (MTemperatureCritical (name (config v)) t);
         InvokeShutdown (MTemperatureCritical (name (config v)) t)]
      else if t >=? temperature_warning (config v) then
        [Log Warning (MTemperatureHigh (name (config v)) t)]
      else []
  | None => []
  end.

(** The state after one primitive called under the lock, its failure
    swallowed. *)
Definition polled (p : primitive) (none : reply p) s : System World :=
  mkSystem (fst (single_read p none (world s))) (bus s) (servo s)
           (trace s ++ [Acquire; Call p; Release]).

(** The state of a caller that holds the lock and waits for it. *)
Definition stuck s : System World :=
  mkSystem (world s) (set_lock_held true (bus s)) (servo s) (trace s ++ [Acquire]).

End MoreVocabulary.

(* ================================================================= *)
(** ** Proof automation *)

(** Unfold the monad down to case analyses on outcomes. *)
Ltac expose :=
  unfold mbind, M_bind, bind, mret, M_ret, ret, gets, emit, modify_bus,
    modify_servo, try_except, device, raise in *.

(** Case analysis on every test the computation in the goal makes. *)
Ltac crunch :=
  repeat (cbn in *;
          match goal with
          | H : lock_held (bus ?s) = _ |- context[lock_held (bus ?s)] => rewrite H
          | |- context[match ?x with _ => _ end] =>
              lazymatch x with
              | context[match _ with _ => _ end] => fail
              | _ => destruct x eqn:?
              end
          end).

Ltac solve_extends :=
  unfold extends; cbn; rewrite <- ?app_assoc; cbn;
  first [ exists []; split; [symmetry; apply app_nil_r | constructor]
        | eexists; split; [reflexivity | repeat constructor; cbn; auto] ].

Ltac shape :=
  split;
  [ solve [left; reflexivity | right; reflexivity]
  | solve [left; reflexivity | right; left; reflexivity
          | right; right; eexists; reflexivity] ].

(* ================================================================= *)
(** ** Properties of the bus manager *)

Section BusProperties.
Context {World : Type} `{drv : Driver World}.
Implicit Types s : System World.
Import ST3215Bus.

Lemma run_bind {A B} (m : M World A) (k : A → M World B) s :
  (m ≫= k) s =
  match m s with
  | Returns s' a => k a s'
  | Raises s' e => Raises s' e
  | Hangs s' => Hangs s'
  end.
Proof. reflexivity. Qed.

Lemma run_try {A} (m : M World A) (h : exc → M World A) s :
  try_except m h s =
  match m s with
  | Raises s' e => h e s'
  | o => o
  end.
Proof. reflexivity. Qed.

Lemma steady_refl s : idle s → steady s s.
Proof. intros H. repeat split; auto. Qed.

Lemma steady_trans s1 s2 s3 : steady s1 s2 → steady s2 s3 → steady s1 s3.
Proof. unfold steady. intros (?&?&?&?) (?&?&?&?). repeat split; congruence. Qed.

Lemma extends_refl P s : extends P s s.
Proof. exists []. split; [symmetry; apply app_nil_r | constructor]. Qed.

Lemma extends_trans P s1 s2 s3 : extends P s1 s2 → extends P s2 s3 → extends P s1 s3.
Proof.
  intros (t1 & E1 & F1) (t2 & E2 & F2). exists (t1 ++ t2). split.
  - rewrite E2, E1. symmetry. apply app_assoc.
  - apply Forall_app; auto.
Qed.

Lemma extends_weaken (P Q : event → Prop) s s' :
  (∀ e, P e → Q e) → extends P s s' → extends Q s s'.
Proof. intros HPQ (t & E & F). exists t. split; auto. eapply Forall_impl; eauto. Qed.

Lemma attempt_event_bus p e : attempt_event p e → bus_event p e.
Proof. destruct e; simpl; tauto. Qed.

Lemma connect_cases s :
  idle s →
  ∃ s' c,
    ((connect s = Returns s' tt ∧ connected (bus s') = true ∧
      (connected (bus s) = true → st3215 (bus s') = st3215 (bus s)) ∧
      (connected (bus s) = false → st3215 (bus s') ≠ None))
     ∨ (∃ m, connect s = Raises s' (ST3215BusError m) ∧ connected (bus s') = false)) ∧
    trace s' = trace s ++ c ∧ connect_trace (serial_port (bus s)) c ∧
    steady s s'.
Proof.
  intros H. unfold connect, with_lock. rewrite H. expose. cbn.
  destruct (connected (bus s)) eqn:Hc; cbn.
  - eexists _, [Acquire; Release].
    split; [left; repeat split; auto; congruence|]. cbn. rewrite <- app_assoc.
    split; [reflexivity|]. split; [left; reflexivity|]. repeat split.
  - destruct (open_port (serial_port (bus s)) (world s)) as [w [err|[]]] eqn:Ho; cbn.
    + eexists _, [Acquire; Open _; Log Error _; Release].
      split; [right; eexists; split; reflexivity|]. cbn.
      rewrite <- !app_assoc. split; [reflexivity|].
      split; [right; right; eexists; reflexivity|]. repeat split.
    + eexists _, [Acquire; Open _; Release].
      split; [left; repeat split; auto; congruence|]. cbn.
      rewrite <- !app_assoc. split; [reflexivity|].
      split; [right; left; reflexivity|]. repeat split.
Qed.

Lemma disconnect_cases s :
  idle s →
  ∃ s' d,
    disconnect s = Returns s' tt ∧ trace s' = trace s ++ d ∧
    disconnect_trace d ∧ steady s s' ∧
    (st3215 (bus s') = None) ∧
    (st3215 (bus s) ≠ None → connected (bus s') = false) ∧
    (st3215 (bus s) = None → connected (bus s') = connected (bus s)).
Proof.
  intros H. unfold disconnect, with_lock. rewrite H. expose. cbn.
  destruct (st3215 (bus s)) eqn:Hh; cbn.
  - eexists _, [Acquire; ClosePort; Release]. split; [reflexivity|]. cbn.
    rewrite <- !app_assoc.
    repeat split; try reflexivity; try congruence. right; reflexivity.
  - eexists _, [Acquire; Release]. split; [reflexivity|]. cbn.
    rewrite <- !app_assoc.
    repeat split; try reflexivity; try congruence; auto. left; reflexivity.
Qed.




Lemma attempt_cases (f : primitive) s :
  idle s →
  match attempt_body f s with
  | Returns s' _ | Raises s' _ => steady s s' ∧ extends (attempt_event f) s s'
  | Hangs _ => False
  end.
Proof.
  unfold idle. intros H.
  unfold attempt_body, invoke, connect, with_lock. expose.
  crunch; (split; [repeat split; auto | solve_extends]).
Qed.

Lemma attempt_wf (f : primitive) s s' r :
  idle s → attempt_body f s = Returns s' r →
  connected (bus s') = true ∧ st3215 (bus s') ≠ None.
Proof.
  unfold idle. intros H.
  unfold attempt_body, invoke, connect, with_lock. expose.
  crunch; intros [= <- <-]; cbn; split; congruence.
Qed.


Lemma reconnect_cases s :
  idle s →
  ∃ s' c, reconnect s = Returns s' tt ∧ trace s' = trace s ++ c ∧
          reconnect_cycle (serial_port (bus s)) c ∧ steady s s'.
Proof.
  unfold idle. intros H.
  unfold reconnect, connect, disconnect, with_lock. expose.
  crunch; eexists _, _; (split; [reflexivity|]); cbn; rewrite <- ?app_assoc; cbn;
    (split; [reflexivity|]); (split; [|repeat split; auto]);
    unfold reconnect_cycle, disconnect_trace, connect_trace;
    solve [ exists [Acquire; ClosePort; Release]; eexists; split; [reflexivity|]; shape
          | exists [Acquire; Release]; eexists; split; [reflexivity|]; shape ].
Qed.

Lemma on_failure_retry op n a e s :
  (a <? n - 1)%nat = true →
  on_failure op n a e s =
  reconnect (noted Warning (MAttemptFailed op (a + 1) n (str e)) e s).
Proof. intros H. unfold on_failure. expose. rewrite H. reflexivity. Qed.

Lemma on_failure_final op n a e s :
  (a <? n - 1)%nat = false →
  on_failure op n a e s =
  Raises (noted Error (MFailedAfter op n (str e)) e s)
         (ST3215BusError (MFailedAfter op n (str e))).
Proof. intros H. unfold on_failure. expose. rewrite H. reflexivity. Qed.

Lemma noted_steady lvl m e s : idle s → steady s (noted lvl m e s).
Proof. intros H. repeat split; auto. Qed.

Lemma noted_extends P lvl m e s : P (Log lvl m) → extends P s (noted lvl m e s).
Proof. intros H. exists [Log lvl m]. split; [reflexivity | repeat constructor; auto]. Qed.

Lemma retry_loop_cons op f n a rest s :
  retry_loop op f n (a :: rest) s =
  match attempt_body f s with
  | Returns s' r => Returns s' (Some r)
  | Raises s' e =>
      match on_failure op n a e s' with
      | Returns s'' _ => retry_loop op f n rest s''
      | Raises s'' e' => Raises s'' e'
      | Hangs s'' => Hangs s''
      end
  | Hangs s' => Hangs s'
  end.
Proof.
  cbn [retry_loop]. unfold try_except, mbind, M_bind, bind, mret, M_ret, ret.
  destruct (attempt_body f s); reflexivity.
Qed.

Lemma reconnect_cycle_bus_events f port c :
  reconnect_cycle port c → Forall (bus_event f) c.
Proof.
  intros (d & c' & -> & Hd & Hc).
  destruct Hd as [-> | ->]; destruct Hc as [-> | [-> | [m ->]]];
    repeat constructor.
Qed.

Lemma retry_loop_cases op f n attempts s :
  idle s →
  match retry_loop op f n attempts s with
  | Returns s' _ => steady s s' ∧ extends (bus_event f) s s'
  | Raises s' e =>
      steady s s' ∧ extends (bus_event f) s s' ∧
      ∃ cause, e = ST3215BusError (MFailedAfter op n cause) ∧
               bus_last_error (bus s') = Some cause
  | Hangs _ => False
  end.
Proof.
  revert s. induction attempts as [|a rest IH]; intros s H.
  - cbn. split; [apply steady_refl; auto | apply extends_refl].
  - rewrite retry_loop_cons.
    pose proof (attempt_cases f s H) as Ha.
    destruct (attempt_body f s) as [s1 r|s1 e|s1]; [|  |contradiction].
    + destruct Ha as [Hs He]. split; auto.
      eapply extends_weaken; [apply attempt_event_bus | exact He].
    + destruct Ha as [Hs He].
      assert (Hi1 : idle s1) by apply Hs.
      apply (extends_weaken _ _ _ _ (attempt_event_bus f)) in He.
      destruct (a <? n - 1)%nat eqn:Hlt.
      * rewrite on_failure_retry by assumption.
        set (s1' := noted _ _ e s1).
        destruct (reconnect_cases s1' (proj2 (proj2 (proj2 (noted_steady _ _ e s1 Hi1)))))
          as (s2 & c & -> & Ht & Hc & Hs2).
        assert (Hx : extends (bus_event f) s s2).
        { eapply extends_trans; [exact He|].
          eapply extends_trans; [apply (noted_extends _ Warning); exact I|].
          exists c. split; [exact Ht | eapply reconnect_cycle_bus_events; eauto]. }
        assert (Hst : steady s s2).
        { eapply steady_trans; [exact Hs|].
          eapply steady_trans; [apply noted_steady; auto | exact Hs2]. }
        specialize (IH s2 (proj2 (proj2 (proj2 Hs2)))).
        destruct (retry_loop op f n rest s2) as [s3 r|s3 e3|s3]; [| |contradiction].
        -- destruct IH. split; [eapply steady_trans | eapply extends_trans]; eauto.
        -- destruct IH as (? & ? & ?).
           split; [eapply steady_trans; eauto|].
           split; [eapply extends_trans; eauto|]. auto.
      * rewrite on_failure_final by assumption.
        split; [eapply steady_trans; [exact Hs | apply noted_steady; auto]|].
        split; [eapply extends_trans; [exact He | apply noted_extends; exact I]|].
        eexists. split; reflexivity.
Qed.


Lemma sleeps_app t1 t2 : sleeps (t1 ++ t2) = (sleeps t1 + sleeps t2)%nat.
Proof. unfold sleeps. rewrite filter_app. apply length_app. Qed.


Lemma sleeps_cycle port c : reconnect_cycle port c → sleeps c = 1%nat.
Proof.
  intros (d & c' & -> & Hd & Hc).
  destruct Hd as [-> | ->]; destruct Hc as [-> | [-> | [m ->]]]; reflexivity.
Qed.





(** A failed attempt that is not the last one: the handler returns, after
    one reconnect cycle. *)
Lemma failed_attempt_recovers op f n a s s1 e :
  idle s → (a <? n - 1)%nat = true →
  attempt_body f s = Raises s1 e →
  ∃ s' t c,
    on_failure op n a e s1 = Returns s' tt ∧ steady s s' ∧
    trace s' = trace s ++ t ++ c ∧
    Forall (attempt_event f) t ∧ reconnect_cycle (serial_port (bus s)) c.
Proof.
  intros Hi Hlt Ha.
  pose proof (attempt_cases f s Hi) as Hc. rewrite Ha in Hc.
  destruct Hc as [Hs (t & Ht & Hf)].
  assert (Hi1 : idle s1) by apply Hs.
  rewrite on_failure_retry by assumption.
  set (m := MAttemptFailed op (a + 1) n (str e)).
  destruct (reconnect_cases (noted Warning m e s1)) as (s' & c & Hr & Htr & Hcyc & Hs').
  { exact Hi1. }
  exists s', (t ++ [Log Warning m]), c. split; [exact Hr|].
  split; [eapply steady_trans; [exact Hs|];
          eapply steady_trans; [apply noted_steady; exact Hi1 | exact Hs']|].
  split; [rewrite Htr; cbn; rewrite Ht, <- !app_assoc; reflexivity|].
  split; [apply Forall_app; split; [exact Hf | repeat constructor]|].
  cbn in Hcyc. destruct Hs as (_ & _ & <- & _). exact Hcyc.
Qed.




Lemma execute_with_retry_cases op f n s :
  idle s →
  match _execute_with_retry op f n s with
  | Returns s' _ => steady s s' ∧ extends (bus_event f) s s'
  | Raises s' e =>
      steady s s' ∧ extends (bus_event f) s s' ∧
      ∃ cause, e = ST3215BusError (MFailedAfter op n cause) ∧
               bus_last_error (bus s') = Some cause
  | Hangs _ => False
  end.
Proof. apply retry_loop_cases. Qed.

Lemma cache_store_eq i p s :
  cache_store i p s =
  Returns (mkSystem (world s)
             (set_position_cache (<[i := p]> (position_cache (bus s))) (bus s))
             (servo s) (trace s ++ [CacheStore i p])) tt.
Proof. reflexivity. Qed.

Lemma read_position_eq i s :
  read_position i s =
  match _execute_with_retry (OpReadPosition i) (ReadPosition i) 3 s with
  | Returns s1 r =>
      match mjoin r with
      | Some p =>
          Returns (mkSystem (world s1)
                     (set_position_cache (<[i := p]> (position_cache (bus s1))) (bus s1))
                     (servo s1) (trace s1 ++ [CacheStore i p])) (Some p)
      | None => Returns s1 None
      end
  | Raises s1 (ST3215BusError _) =>
      match position_cache (bus s1) !! i with
      | Some c =>
          Returns (mkSystem (world s1) (bus s1) (servo s1)
                     (trace s1 ++ [Log Warning (MUsingCached i c)])) (Some c)
      | None => Returns s1 None
      end
  | Raises s1 e => Raises s1 e
  | Hangs s1 => Hangs s1
  end.
Proof.
  unfold read_position. expose.
  destruct (_execute_with_retry _ _ 3 s) as [s1 r|s1 e|s1]; cbn; try reflexivity.
  - destruct (mjoin r); reflexivity.
  - destruct e; try reflexivity. destruct (position_cache (bus s1) !! i); reflexivity.
Qed.

Lemma bus_event_read i e : bus_event (ReadPosition i) e → read_event i e.
Proof. destruct e; cbn; tauto. Qed.

(** What [read_position] does to the rest of the system: it never raises and
    never blocks when the lock is free, leaves the servo alone, and either
    keeps the cache or stores the value it returns. *)
Lemma read_position_cases i s :
  idle s →
  ∃ s' pos,
    read_position i s = Returns s' pos ∧
    servo s' = servo s ∧ idle s' ∧
    serial_port (bus s') = serial_port (bus s) ∧
    extends (read_event i) s s' ∧
    (position_cache (bus s') = position_cache (bus s) ∨
     ∃ p, pos = Some p ∧ position_cache (bus s') = <[i := p]> (position_cache (bus s))).
Proof.
  intros H. rewrite read_position_eq.
  pose proof (execute_with_retry_cases (OpReadPosition i) (ReadPosition i) 3 s H) as Hc.
  destruct (_execute_with_retry _ _ 3 s) as [s1 r|s1 e|s1]; [| |contradiction].
  - destruct Hc as [(Hv & Hca & Hp & Hl) Hx].
    apply (extends_weaken _ _ _ _ (bus_event_read i)) in Hx.
    destruct (mjoin r) as [p|].
    + eexists _, _. split; [reflexivity|]. cbn.
      repeat split; auto.
      * eapply extends_trans; [exact Hx|].
        exists [CacheStore i p]. split; [reflexivity | repeat constructor].
      * right. exists p. rewrite Hca. auto.
    + eexists _, _. split; [reflexivity|]. repeat split; auto.
  - destruct Hc as ((Hv & Hca & Hp & Hl) & Hx & cause & -> & _).
    apply (extends_weaken _ _ _ _ (bus_event_read i)) in Hx.
    destruct (position_cache (bus s1) !! i) as [c|].
    + eexists _, _. split; [reflexivity|]. cbn. repeat split; auto.
      eapply extends_trans; [exact Hx|].
      exists [Log Warning (MUsingCached i c)]. split; [reflexivity | repeat constructor].
    + eexists _, _. split; [reflexivity|]. repeat split; auto.
Qed.

(** C4: [read_position] stores and returns the value of a successful read;
    when the retried read raises [ST3215BusError] it returns what the cache
    holds for that servo ([None] when it holds nothing) and leaves the cache
    as it is; it never raises. *)
Theorem read_position_cache_fallback i s :
  idle s →
  let retried := _execute_with_retry (OpReadPosition i) (ReadPosition i) 3 s in
  (∀ s1 p,
     retried = Returns s1 (Some (Some p)) →
     ∃ s2, read_position i s = Returns s2 (Some p) ∧
           position_cache (bus s2) = <[i := p]> (position_cache (bus s)) ∧
           position_cache (bus s2) !! i = Some p) ∧
  (∀ s1 e,
     retried = Raises s1 e →
     ∃ s2, read_position i s = Returns s2 (position_cache (bus s) !! i) ∧
           position_cache (bus s2) = position_cache (bus s)) ∧
  (∀ s' e, read_position i s ≠ Raises s' e).
Proof.
  intros H retried.
  pose proof (execute_with_retry_cases (OpReadPosition i) (ReadPosition i) 3 s H) as Hc.
  fold retried in Hc. rewrite read_position_eq. fold retried.
  split; [|split].
  - intros s1 p E. rewrite E in *. cbn. destruct Hc as [(_ & Hca & _) _].
    eexists. split; [reflexivity|]. cbn. rewrite Hca.
    split; [reflexivity | apply lookup_insert_eq].
  - intros s1 e E. rewrite E in *.
    destruct Hc as ((_ & Hca & _) & _ & cause & -> & _). rewrite Hca.
    destruct (position_cache (bus s) !! i); eexists; (split; [reflexivity|]); cbn; auto.
  - intros s' e.
    destruct retried as [s1 r|s1 e1|s1]; [| |contradiction].
    + destruct (mjoin r); discriminate.
    + destruct Hc as (_ & _ & cause & -> & _).
      destruct (position_cache (bus s1) !! i); discriminate.
Qed.


(** *** The bus methods never touch the servo record *)

Lemma bus_only_ret {A} (a : A) : bus_only (ret (World := World) a).
Proof. intros s. reflexivity. Qed.

Lemma bus_only_raise {A} e : bus_only (raise (World := World) (A := A) e).
Proof. intros s. reflexivity. Qed.

Lemma bus_only_gets {A} (f : System World → A) : bus_only (gets f).
Proof. intros s. reflexivity. Qed.

Lemma bus_only_modify_bus f : bus_only (modify_bus (World := World) f).
Proof. intros s. reflexivity. Qed.

Lemma bus_only_emit e : bus_only (emit (World := World) e).
Proof. intros s. reflexivity. Qed.

Lemma bus_only_device {A} (f : World → World * (string + A)) : bus_only (device f).
Proof. intros s. unfold device. destruct (f (world s)) as [w [err|a]]; reflexivity. Qed.

Lemma bus_only_bind {A B} (m : M World A) (k : A → M World B) :
  bus_only m → (∀ a, bus_only (k a)) → bus_only (m ≫= k).
Proof.
  intros Hm Hk s. unfold mbind, M_bind, bind. specialize (Hm s).
  destruct (m s) as [s1 a|s1 e|s1]; cbn in *; try assumption.
  rewrite Hk. assumption.
Qed.

Lemma bus_only_try {A} (m : M World A) (h : exc → M World A) :
  bus_only m → (∀ e, bus_only (h e)) → bus_only (try_except m h).
Proof.
  intros Hm Hh s. unfold try_except. specialize (Hm s).
  destruct (m s) as [s1 a|s1 e|s1]; cbn in *; try assumption.
  rewrite Hh. assumption.
Qed.

Lemma bus_only_with_lock {A} (m : M World A) : bus_only m → bus_only (with_lock m).
Proof.
  intros Hm s. unfold with_lock. destruct (lock_held (bus s)); [reflexivity|].
  expose. cbn.
  match goal with |- context[m ?x] => specialize (Hm x); destruct (m x) end;
    cbn in *; assumption.
Qed.

Ltac bus_only :=
  repeat first
    [ assumption
    | progress intros
    | apply bus_only_bind | apply bus_only_try | apply bus_only_with_lock
    | apply bus_only_ret | apply bus_only_raise | apply bus_only_gets
    | apply bus_only_modify_bus | apply bus_only_emit | apply bus_only_device
    | match goal with
      | |- bus_only (match ?x with _ => _ end) => destruct x
      end ].

Lemma bus_only_connect : bus_only connect.
Proof. unfold connect. bus_only. Qed.

Lemma bus_only_disconnect : bus_only disconnect.
Proof. unfold disconnect. bus_only. Qed.

Lemma bus_only_invoke p : bus_only (invoke p).
Proof. unfold invoke. bus_only. Qed.

Lemma bus_only_attempt_body f : bus_only (attempt_body f).
Proof.
  unfold attempt_body. pose proof bus_only_connect. pose proof (bus_only_invoke f).
  bus_only.
Qed.

Lemma bus_only_reconnect : bus_only reconnect.
Proof.
  unfold reconnect. pose proof bus_only_connect. pose proof bus_only_disconnect.
  bus_only.
Qed.

Lemma bus_only_on_failure op n a e : bus_only (on_failure op n a e).
Proof. unfold on_failure. pose proof bus_only_reconnect. bus_only. Qed.

Lemma bus_only_retry_loop op f n attempts : bus_only (retry_loop op f n attempts).
Proof.
  induction attempts as [|a rest IH]; cbn [retry_loop].
  - apply bus_only_ret.
  - pose proof (bus_only_attempt_body f). pose proof (bus_only_on_failure op n a).
    bus_only.
Qed.

Lemma bus_only_execute_with_retry op f n : bus_only (_execute_with_retry op f n).
Proof. apply bus_only_retry_loop. Qed.

Lemma bus_only_cache_store i p : bus_only (cache_store (World := World) i p).
Proof. unfold cache_store. bus_only. Qed.

Lemma bus_only_move_to i p sp ac : bus_only (ST3215Bus.move_to i p sp ac).
Proof.
  unfold ST3215Bus.move_to.
  pose proof (bus_only_execute_with_retry (OpMoveTo i p) (MoveTo i p sp ac) 3).
  pose proof (bus_only_cache_store i p). bus_only.
Qed.

Lemma bus_only_read_position i : bus_only (read_position i).
Proof.
  unfold read_position. cbv zeta.
  pose proof (bus_only_execute_with_retry (OpReadPosition i) (ReadPosition i) 3).
  pose proof (bus_only_cache_store i). bus_only.
Qed.

Lemma bus_only_ping_servo i : bus_only (ping_servo i).
Proof.
  unfold ping_servo. pose proof bus_only_connect. pose proof (bus_only_invoke (PingServo i)).
  bus_only.
Qed.

Lemma bus_only_read_telemetry p none : bus_only (read_telemetry p none).
Proof.
  unfold read_telemetry. pose proof bus_only_connect. pose proof (bus_only_invoke p).
  bus_only.
Qed.

Lemma bus_only_read_status i : bus_only (read_status i).
Proof.
  unfold read_status, read_temperature, read_voltage, read_current.
  pose proof (λ p, bus_only_read_telemetry p). bus_only.
Qed.


Lemma bus_move_to_eq i p sp ac s :
  ST3215Bus.move_to i p sp ac s =
  match _execute_with_retry (OpMoveTo i p) (MoveTo i p sp ac) 3 s with
  | Returns s1 _ =>
      Returns (mkSystem (world s1)
                 (set_position_cache (<[i := p]> (position_cache (bus s1))) (bus s1))
                 (servo s1) (trace s1 ++ [CacheStore i p])) tt
  | Raises s1 e => Raises s1 e
  | Hangs s1 => Hangs s1
  end.
Proof.
  unfold ST3215Bus.move_to. expose.
  destruct (_execute_with_retry _ _ 3 s); reflexivity.
Qed.

(** On a bus without faults the first attempt succeeds, and the only
    primitive called is the one asked for. *)
Lemma attempt_fault_free ok f s :
  fault_free ok → ok (world s) → idle s → wf_bus (bus s) →
  ∃ s' r t,
    attempt_body f s = Returns s' r ∧ trace s' = trace s ++ t ∧ calls t = [f] ∧
    steady s s' ∧ ok (world s').
Proof.
  intros Hff Hok Hi Hwf. unfold idle in Hi.
  destruct (Hff _ Hok) as (Hopen & _ & Hcall).
  unfold attempt_body, invoke, connect, with_lock. expose. cbn.
  destruct (connected (bus s)) eqn:Hc; cbn.
  - destruct (st3215 (bus s)) eqn:Hh; [|exfalso; apply (Hwf Hc); exact Hh].
    cbn. destruct (Hcall f) as (w' & r & Ec & Hok'). rewrite Ec. cbn.
    destruct (reconnect_attempt (bus s)); cbn;
      eexists _, r, [Call f]; repeat split; auto.
  - rewrite Hi. cbn. rewrite Hc. cbn.
    destruct (Hopen (serial_port (bus s))) as (w1 & Eo & Hok1). rewrite Eo. cbn.
    destruct (Hff _ Hok1) as (_ & _ & Hcall1).
    destruct (Hcall1 f) as (w' & r & Ec & Hok'). rewrite Ec. cbn.
    eexists _, r, [Acquire; Open _; Release; Call f]. cbn.
    rewrite <- !app_assoc. repeat split; auto.
Qed.

Lemma bus_move_to_fault_free ok i p sp ac s :
  fault_free ok → ok (world s) → idle s → wf_bus (bus s) →
  ∃ s' t,
    ST3215Bus.move_to i p sp ac s = Returns s' tt ∧
    servo s' = servo s ∧
    position_cache (bus s') = <[i := p]> (position_cache (bus s)) ∧
    trace s' = trace s ++ t ∧ calls t = [MoveTo i p sp ac].
Proof.
  intros Hff Hok Hi Hwf.
  destruct (attempt_fault_free ok (MoveTo i p sp ac) s Hff Hok Hi Hwf)
    as (s1 & r & t & Ha & Ht & Hcalls & (Hv & Hca & _) & _).
  rewrite bus_move_to_eq. unfold _execute_with_retry. cbn [seq].
  rewrite retry_loop_cons, Ha.
  eexists _, (t ++ [CacheStore i p]). split; [reflexivity|]. cbn.
  split; [exact Hv|]. split; [rewrite Hca; reflexivity|].
  split; [rewrite Ht, app_assoc; reflexivity|].
  unfold calls in *. rewrite omap_app, Hcalls. reflexivity.
Qed.


Lemma attempt_returns_called f s s' r :
  idle s → attempt_body f s = Returns s' r →
  ∃ t, trace s' = trace s ++ t ++ [Call f].
Proof.
  unfold idle. intros H.
  unfold attempt_body, invoke, connect, with_lock. expose.
  crunch; intros [= <- <-]; cbn; rewrite <- ?app_assoc.
  all: first [ congruence
             | exists []; reflexivity
             | eexists [Acquire; Open _; Release]; reflexivity ].
Qed.

Lemma execute_with_retry_returns_some op f s s' r :
  _execute_with_retry op f 3 s = Returns s' r → ∃ x, r = Some x.
Proof.
  unfold _execute_with_retry. cbn [seq]. rewrite retry_loop_cons.
  destruct (attempt_body f s) as [? x|s1 e1|?]; [intros [= _ <-]; eauto| |discriminate].
  destruct (on_failure op 3 0 e1 s1) as [u1 ?|?|?]; [|discriminate..].
  rewrite retry_loop_cons.
  destruct (attempt_body f u1) as [? x|s2 e2|?]; [intros [= _ <-]; eauto| |discriminate].
  destruct (on_failure op 3 1 e2 s2) as [u2 ?|?|?]; [|discriminate..].
  rewrite retry_loop_cons.
  destruct (attempt_body f u2) as [? x|s3 e3|?]; [intros [= _ <-]; eauto| |discriminate].
  rewrite on_failure_final by reflexivity. discriminate.
Qed.

Lemma retry_loop_returns_called op f n attempts s s' r :
  idle s → retry_loop op f n attempts s = Returns s' (Some r) →
  ∃ t, trace s' = trace s ++ t ∧ In (Call f) t.
Proof.
  revert s. induction attempts as [|a rest IH]; intros s Hi; [discriminate|].
  rewrite retry_loop_cons.
  pose proof (attempt_cases f s Hi) as Hc.
  destruct (attempt_body f s) as [s1 r1|s1 e|s1] eqn:Ha; [| |contradiction].
  - intros [= <- _]. destruct (attempt_returns_called f s s1 r1 Hi Ha) as (t & Ht).
    exists (t ++ [Call f]). split; [exact Ht|]. apply in_or_app. right. left. reflexivity.
  - destruct Hc as [Hs (t1 & Ht1 & _)].
    destruct (a <? n - 1)%nat eqn:Hlt.
    + destruct (failed_attempt_recovers op f n a s s1 e Hi Hlt Ha)
        as (s2 & t & c & -> & Hs2 & Ht2 & _).
      intros Hr. destruct (IH s2 (proj2 (proj2 (proj2 Hs2))) Hr) as (t3 & Ht3 & Hin).
      exists ((t ++ c) ++ t3). split.
      * rewrite Ht3, Ht2, <- !app_assoc. reflexivity.
      * apply in_or_app. right. exact Hin.
    + rewrite on_failure_final by assumption. discriminate.
Qed.


(** *** Keeping a property of the servo record *)

Lemma keeps_bus_only (I : Servo → Prop) {A} (m : M World A) :
  bus_only m → keeps I m.
Proof. intros Hm s Hs. rewrite Hm. exact Hs. Qed.

Lemma keeps_bind (I : Servo → Prop) {A B} (m : M World A) (k : A → M World B) :
  keeps I m → (∀ a, keeps I (k a)) → keeps I (m ≫= k).
Proof.
  intros Hm Hk s Hs. rewrite run_bind. specialize (Hm s Hs).
  destruct (m s) as [s1 a|s1 e|s1]; cbn in *; try assumption.
  apply Hk. assumption.
Qed.

Lemma keeps_try (I : Servo → Prop) {A} (m : M World A) (h : exc → M World A) :
  keeps I m → (∀ e, keeps I (h e)) → keeps I (try_except m h).
Proof.
  intros Hm Hh s Hs. rewrite run_try. specialize (Hm s Hs).
  destruct (m s) as [s1 a|s1 e|s1]; cbn in *; try assumption.
  apply Hh. assumption.
Qed.

Lemma keeps_modify_servo (I : Servo → Prop) (f : Servo → Servo) :
  (∀ v, I v → I (f v)) → keeps I (modify_servo (World := World) f).
Proof. intros Hf s Hs. cbn. apply Hf. exact Hs. Qed.

Lemma try_bind_returns {A B} (m : M World A) (k : A → M World B) h s s1 a :
  m s = Returns s1 a → try_except (m ≫= k) h s = try_except (k a) h s1.
Proof. intros E. rewrite !run_try, run_bind, E. reflexivity. Qed.

(** *** States between two calls *)

(** A connected bus has its driver object: true of a new bus and kept by
    every method that comes back. *)
Lemma wf_bus_new port baud : wf_bus (new_bus port baud).
Proof. intros H. discriminate H. Qed.

Ltac wf_done :=
  cbn;
  first [ assumption
        | let Hc := fresh in
          let E := fresh in
          intros Hc E;
          first [ discriminate | congruence
                | match goal with
                  | Hwf : _ → _ ≠ _ |- _ => eapply Hwf; congruence
                  end ] ].

Lemma connect_wf s :
  idle s → wf_bus (bus s) → wf_bus (bus (final (connect s))).
Proof.
  unfold idle, wf_bus. intros H Hwf.
  unfold connect, with_lock. expose. crunch; wf_done.
Qed.

Lemma disconnect_wf s :
  idle s → wf_bus (bus s) → wf_bus (bus (final (disconnect s))).
Proof.
  unfold idle, wf_bus. intros H Hwf.
  unfold disconnect, with_lock. expose. crunch; wf_done.
Qed.

Lemma attempt_body_wf f s :
  idle s → wf_bus (bus s) → wf_bus (bus (final (attempt_body f s))).
Proof.
  unfold idle, wf_bus. intros H Hwf.
  unfold attempt_body, invoke, connect, with_lock. expose.
  crunch; wf_done.
Qed.

Lemma reconnect_wf s :
  idle s → wf_bus (bus s) → wf_bus (bus (final (reconnect s))).
Proof.
  unfold idle, wf_bus. intros H Hwf.
  unfold reconnect, connect, disconnect, with_lock. expose.
  crunch; wf_done.
Qed.

Lemma retry_loop_wf op f n attempts s :
  idle s → wf_bus (bus s) → wf_bus (bus (final (retry_loop op f n attempts s))).
Proof.
  revert s. induction attempts as [|a rest IH]; intros s Hi Hwf; [exact Hwf|].
  rewrite retry_loop_cons.
  pose proof (attempt_cases f s Hi) as Hc.
  pose proof (attempt_body_wf f s Hi Hwf) as Hw.
  destruct (attempt_body f s) as [s1 r|s1 e|s1]; [exact Hw| |contradiction].
  destruct Hc as [Hs _]. assert (Hi1 : idle s1) by apply Hs. cbn in Hw.
  destruct (a <? n - 1)%nat eqn:Hlt.
  - rewrite on_failure_retry by assumption.
    set (s1' := noted _ _ e s1).
    assert (Hi1' : idle s1') by exact Hi1.
    assert (Hw1' : wf_bus (bus s1')) by exact Hw.
    pose proof (reconnect_wf s1' Hi1' Hw1') as Hw2.
    destruct (reconnect_cases s1' Hi1') as (s2 & c & Hr & _ & _ & Hs2).
    rewrite Hr in Hw2 |- *. apply IH; [apply Hs2 | exact Hw2].
  - rewrite on_failure_final by assumption. exact Hw.
Qed.

Lemma bus_move_to_wf i p sp ac s :
  idle s → wf_bus (bus s) → wf_bus (bus (final (ST3215Bus.move_to i p sp ac s))).
Proof.
  intros Hi Hwf. rewrite bus_move_to_eq.
  pose proof (retry_loop_wf (OpMoveTo i p) (MoveTo i p sp ac) 3 (seq 0 3) s Hi Hwf) as Hw.
  unfold _execute_with_retry.
  destruct (retry_loop _ _ 3 (seq 0 3) s); exact Hw.
Qed.

Lemma read_position_wf i s :
  idle s → wf_bus (bus s) → wf_bus (bus (final (read_position i s))).
Proof.
  intros Hi Hwf. rewrite read_position_eq.
  pose proof (retry_loop_wf (OpReadPosition i) (ReadPosition i) 3 (seq 0 3) s Hi Hwf)
    as Hw.
  unfold _execute_with_retry.
  destruct (retry_loop _ _ 3 (seq 0 3) s) as [s1 r|s1 e|s1]; cbn in Hw.
  - destruct (mjoin r); exact Hw.
  - destruct e; try exact Hw. destruct (position_cache (bus s1) !! i); exact Hw.
  - exact Hw.
Qed.

(** *** Where the lock is, and where it is not *)

(** [connect] and [disconnect] touch the port under the lock. *)
Lemma connect_under_lock s :
  idle s → ∃ t, trace (final (connect s)) = trace s ++ t ∧ locked_io false t = true.
Proof.
  intros H. destruct (connect_cases s H) as (s' & c & Ho & Ht & Hc & _).
  exists c. split.
  - destruct Ho as [(-> & _) | (m & -> & _)]; exact Ht.
  - destruct Hc as [-> | [-> | [m ->]]]; reflexivity.
Qed.

Lemma disconnect_under_lock s :
  idle s → ∃ t, trace (final (disconnect s)) = trace s ++ t ∧ locked_io false t = true.
Proof.
  intros H. destruct (disconnect_cases s H) as (s' & d & -> & Ht & Hd & _).
  exists d. split; [exact Ht|]. destruct Hd as [-> | ->]; reflexivity.
Qed.

(** The retry loop on a connected bus: the first thing it does is to call the
    primitive, and the lock has not been taken. *)
Lemma retry_loop_calls_unlocked op f n a rest s :
  idle s → connected (bus s) = true → st3215 (bus s) ≠ None →
  ∃ t, trace (final (retry_loop op f n (a :: rest) s)) = trace s ++ Call f :: t ∧
       locked_io false (Call f :: t) = false.
Proof.
  intros Hi Hc Hh.
  assert (Ha : trace (final (attempt_body f s)) = trace s ++ [Call f] ∧
               idle (final (attempt_body f s))).
  { unfold idle in *. unfold attempt_body, invoke. expose. cbn. rewrite Hc. cbn.
    destruct (st3215 (bus s)); [|contradiction]. cbn.
    destruct (call f (world s)) as [w [err|r]]; cbn; [auto|].
    destruct (reconnect_attempt (bus s)); cbn; auto. }
  destruct Ha as [Ht Hi1].
  assert (Hx : ∃ t, trace (final (retry_loop op f n (a :: rest) s)) =
                    trace (final (attempt_body f s)) ++ t).
  { rewrite retry_loop_cons.
    destruct (attempt_body f s) as [s1 r|s1 e|s1]; cbn in *;
      try (exists []; symmetry; apply app_nil_r).
    destruct (a <? n - 1)%nat eqn:Hlt.
    - rewrite on_failure_retry by assumption.
      set (s1' := noted _ _ e s1).
      destruct (reconnect_cases s1' Hi1) as (s2 & c & -> & Hc2 & _ & Hs2).
      pose proof (retry_loop_cases op f n rest s2 (proj2 (proj2 (proj2 Hs2)))) as Hl.
      destruct (retry_loop op f n rest s2) as [s3 r3|s3 e3|s3]; [| |contradiction].
      + destruct Hl as [_ (t3 & Ht3 & _)]. cbn. eexists.
        rewrite Ht3, Hc2. cbn. rewrite <- !app_assoc. reflexivity.
      + destruct Hl as (_ & (t3 & Ht3 & _) & _). cbn. eexists.
        rewrite Ht3, Hc2. cbn. rewrite <- !app_assoc. reflexivity.
    - rewrite on_failure_final by assumption. cbn. eexists. reflexivity. }
  destruct Hx as (t & Hx). exists t. split; [|reflexivity].
  rewrite Hx, Ht, <- app_assoc. reflexivity.
Qed.

End BusProperties.

(* ================================================================= *)
(** ** Properties of the servo controller *)

Section ServoProperties.
Context {World : Type} `{drv : Driver World}.
Implicit Types s : System World.
Import ST3215Servo.

(** C1: [_check_temperature] with a cached temperature [t].  At or above
    [temperature_critical]: the error is logged, [invoke_shutdown] is called
    and an exception is raised.  From [temperature_warning] up to, and not
    including, [temperature_critical] (so also at [temperature_critical - 1]):
    a warning is logged and the method returns.  Below
    [temperature_warning]: nothing happens. *)
Theorem check_temperature_thresholds s t :
  cached_temperature (servo s) = Some t →
  temperature_warning (config (servo s)) < temperature_critical (config (servo s)) →
  let c := config (servo s) in
  let fatal := MTemperatureCritical (name c) t in
  let warned := logged [Log Warning (MTemperatureHigh (name c) t)] s in
  (temperature_critical c ≤ t →
     _check_temperature s =
       Raises (logged [Log Error fatal; InvokeShutdown fatal] s) (PyException fatal)) ∧
  (temperature_warning c ≤ t < temperature_critical c →
     _check_temperature s = Returns warned tt) ∧
  (t = temperature_critical c - 1 → _check_temperature s = Returns warned tt) ∧
  (t < temperature_warning c → _check_temperature s = Returns s tt).
Proof.
  intros Ht Hcfg c fatal warned.
  assert (Hw : temperature_warning c ≤ t < temperature_critical c →
               _check_temperature s = Returns warned tt).
  { intros [Hlo Hhi]. unfold _check_temperature. expose. cbn. rewrite Ht.
    fold c. destruct (Z.geb_spec t (temperature_critical c)); [lia|].
    destruct (Z.geb_spec t (temperature_warning c)); [|lia].
    unfold warned, logged. reflexivity. }
  repeat split.
  - intros Hc. unfold _check_temperature. expose. cbn. rewrite Ht. fold c.
    destruct (Z.geb_spec t (temperature_critical c)); [|lia].
    unfold logged. cbn. rewrite <- app_assoc. reflexivity.
  - exact Hw.
  - intros ->. apply Hw. subst c. lia.
  - intros Hlo. unfold _check_temperature. expose. cbn. rewrite Ht. fold c.
    destruct (Z.geb_spec t (temperature_critical c)); [subst c; lia|].
    destruct (Z.geb_spec t (temperature_warning c)); [lia|].
    destruct s; reflexivity.
Qed.

(** C2: [move_to] on a position outside [position_min .. position_max]
    raises [ValueError] in the state it was called in: no bus call, no effect,
    servo record and position cache as before. *)
Theorem move_to_rejects_out_of_range p speed accel s :
  let c := config (servo s) in
  p < position_min c ∨ position_max c < p →
  ∃ m, move_to p speed accel s = Raises s (ValueError m) ∧
       (m = MBelowMinimum p (position_min c) ∨ m = MAboveMaximum p (position_max c)).
Proof.
  intros c Hp. unfold move_to, _validate_position. expose. cbn. fold c.
  destruct (Z.ltb_spec p (position_min c)).
  - eexists. split; [destruct s; reflexivity | left; reflexivity].
  - destruct (Z.gtb_spec p (position_max c)); [|lia].
    eexists. split; [destruct s; reflexivity | right; reflexivity].
Qed.


Lemma validate_position_in_range p s :
  in_range (config (servo s)) p → _validate_position p s = Returns s p.
Proof.
  intros [Hlo Hhi]. unfold _validate_position. expose. cbn.
  destruct (Z.ltb_spec p (position_min (config (servo s)))); [lia|].
  destruct (Z.gtb_spec p (position_max (config (servo s)))); [lia|].
  destruct s; reflexivity.
Qed.

Lemma check_temperature_passes s :
  (∀ t, cached_temperature (servo s) = Some t →
        t < temperature_critical (config (servo s))) →
  _check_temperature s = Returns (after_guard s) tt.
Proof.
  intros Hg. unfold _check_temperature, after_guard. expose. cbn.
  destruct (cached_temperature (servo s)) as [t|]; [|destruct s; reflexivity].
  specialize (Hg t eq_refl).
  destruct (Z.geb_spec t (temperature_critical (config (servo s)))); [lia|].
  destruct (t >=? temperature_warning (config (servo s))); [reflexivity|].
  destruct s; reflexivity.
Qed.

(** [move_to] on a position within the limits, once the guard lets it pass:
    the bus move, then the two state changes. *)
Lemma move_to_eq p speed accel s :
  let c := config (servo s) in
  in_range c p →
  (∀ t, cached_temperature (servo s) = Some t → t < temperature_critical c) →
  move_to p speed accel s =
  match ST3215Bus.move_to (servo_id c) p (sent_speed c speed) (sent_accel c accel)
          (after_guard s) with
  | Returns s' _ => Returns (moved p s') tt
  | Raises s' e => Raises s' e
  | Hangs s' => Hangs s'
  end.
Proof.
  intros c [Hlo Hhi] Hg.
  assert (Hcfg : config (servo (after_guard s)) = c).
  { unfold after_guard. destruct (cached_temperature (servo s)); [|reflexivity].
    destruct (_ >=? _); reflexivity. }
  unfold move_to. rewrite run_bind, (validate_position_in_range p s (conj Hlo Hhi)).
  rewrite run_bind, (check_temperature_passes s Hg).
  rewrite run_bind. unfold gets at 1. rewrite Hcfg.
  fold (sent_speed c speed). fold (sent_accel c accel).
  rewrite run_bind.
  destruct (ST3215Bus.move_to _ _ _ _ (after_guard s)); reflexivity.
Qed.


(** C10: as long as no temperature has been read, [_check_temperature]
    returns without any effect, and [move_to] on a position within the limits
    is the bus move followed by the two state changes, whatever the thresholds
    are. *)
Theorem move_to_without_temperature_reading s :
  cached_temperature (servo s) = None →
  let c := config (servo s) in
  _check_temperature s = Returns s tt ∧
  ∀ p speed accel,
    in_range c p →
    move_to p speed accel s =
    match ST3215Bus.move_to (servo_id c) p (sent_speed c speed) (sent_accel c accel) s with
    | Returns s' _ => Returns (moved p s') tt
    | Raises s' e => Raises s' e
    | Hangs s' => Hangs s'
    end.
Proof.
  intros Hn c.
  assert (Hg : ∀ t, cached_temperature (servo s) = Some t → t < temperature_critical c)
    by (intros t E; congruence).
  assert (Ha : after_guard s = s) by (unfold after_guard; rewrite Hn; reflexivity).
  split.
  - rewrite (check_temperature_passes s Hg), Ha. reflexivity.
  - intros p speed accel Hp. rewrite (move_to_eq p speed accel s Hp Hg), Ha. reflexivity.
Qed.

Lemma clamp_bounds hi v : 0 ≤ hi → 0 ≤ clamp hi v ≤ hi.
Proof. unfold clamp. lia. Qed.

Lemma clamp_id hi v : 0 ≤ v ≤ hi → clamp hi v = v.
Proof. unfold clamp. lia. Qed.

(** C5, amended: on a bus without faults, with the temperature guard not
    tripped (no cached temperature, or one below [temperature_critical]),
    [move_to] on a position within the limits returns; afterwards the target
    is that position, the motion flag is set and the cache holds the position
    for this servo.  The one primitive called is [MoveTo] with the speed and
    acceleration clamped into 0..3400 and 0..254, the configured maxima
    standing in for absent values. *)
Theorem move_to_in_range_succeeds (ok : World → Prop) p speed accel s :
  let c := config (servo s) in
  fault_free ok → ok (world s) → idle s → wf_bus (bus s) →
  in_range c p →
  (∀ t, cached_temperature (servo s) = Some t → t < temperature_critical c) →
  ∃ s' t,
    move_to p speed accel s = Returns s' tt ∧
    target_position (servo s') = Some p ∧ is_moving (servo s') = true ∧
    position_cache (bus s') !! servo_id c = Some p ∧
    trace s' = trace s ++ t ∧
    calls t = [MoveTo (servo_id c) p (sent_speed c speed) (sent_accel c accel)] ∧
    0 ≤ sent_speed c speed ≤ 3400 ∧ 0 ≤ sent_accel c accel ≤ 254 ∧
    (0 ≤ max_speed c ≤ 3400 → sent_speed c None = max_speed c) ∧
    (0 ≤ max_accel c ≤ 254 → sent_accel c None = max_accel c) ∧
    (∀ v, 0 ≤ v ≤ 3400 → sent_speed c (Some v) = v) ∧
    (∀ v, 0 ≤ v ≤ 254 → sent_accel c (Some v) = v).
Proof.
  intros c Hff Hok Hi Hwf Hp Hg.
  rewrite (move_to_eq p speed accel s Hp Hg). fold c.
  assert (Hag : world (after_guard s) = world s ∧ bus (after_guard s) = bus s ∧
                ∃ g, trace (after_guard s) = trace s ++ g ∧ calls g = []).
  { unfold after_guard. destruct (cached_temperature (servo s)) as [t|].
    - destruct (t >=? _); cbn.
      + repeat split. eexists. split; reflexivity.
      + repeat split. exists []. split; [symmetry; apply app_nil_r | reflexivity].
    - repeat split. exists []. split; [symmetry; apply app_nil_r | reflexivity]. }
  destruct Hag as (Hw & Hb & g & Hg1 & Hg2).
  destruct (bus_move_to_fault_free ok (servo_id c) p (sent_speed c speed)
              (sent_accel c accel) (after_guard s) Hff)
    as (s' & t & -> & Hv & Hca & Ht & Hcalls).
  { rewrite Hw. exact Hok. }
  { unfold idle. rewrite Hb. exact Hi. }
  { rewrite Hb. exact Hwf. }
  exists (moved p s'), (g ++ t). split; [reflexivity|]. cbn.
  split; [reflexivity|]. split; [reflexivity|].
  split; [rewrite Hca; apply lookup_insert_eq|].
  split; [rewrite Ht, Hg1, app_assoc; reflexivity|].
  split; [unfold calls in *; rewrite omap_app, Hg2, Hcalls; reflexivity|].
  split; [apply clamp_bounds; lia|]. split; [apply clamp_bounds; lia|].
  repeat split; intros; apply clamp_id; assumption.
Qed.

Lemma stop_eq s :
  stop s =
  match ST3215Bus.read_position (servo_id (config (servo s))) s with
  | Returns s1 (Some pos) =>
      match ST3215Bus.move_to (servo_id (config (servo s))) pos 0 0 (located pos s1) with
      | Returns s2 _ => Returns (halted pos s2) tt
      | Raises s2 e => Raises s2 e
      | Hangs s2 => Hangs s2
      end
  | Returns s1 None => Returns s1 tt
  | Raises s1 e => Raises s1 e
  | Hangs s1 => Hangs s1
  end.
Proof.
  unfold stop. rewrite run_bind. unfold gets at 1. rewrite run_bind.
  destruct (ST3215Bus.read_position _ s) as [s1 [pos|]|s1 e|s1]; reflexivity.
Qed.

(** C6, amended: [stop] after a position read that gave [pos] stores [pos]
    as current position and runs the bus move to [pos] with speed 0 and
    acceleration 0.  When that move returns, the driver has been called with
    [MoveTo pos 0 0], the target is [pos] and the motion flag is cleared; when
    it raises, the error propagates with target and motion flag as they
    were.  After a read that gave nothing, [stop] returns with the servo record
    unchanged and no driver call other than the position reads. *)
Theorem stop_holds_position_or_does_nothing s :
  idle s →
  let i := servo_id (config (servo s)) in
  (∀ s1 pos,
     ST3215Bus.read_position i s = Returns s1 (Some pos) →
     (∀ s2,
        ST3215Bus.move_to i pos 0 0 (located pos s1) = Returns s2 tt →
        stop s = Returns (halted pos s2) tt ∧
        current_position (servo (halted pos s2)) = Some pos ∧
        target_position (servo (halted pos s2)) = Some pos ∧
        is_moving (servo (halted pos s2)) = false ∧
        ∃ t, trace (halted pos s2) = trace s1 ++ t ∧ In (Call (MoveTo i pos 0 0)) t) ∧
     (∀ s2 e,
        ST3215Bus.move_to i pos 0 0 (located pos s1) = Raises s2 e →
        stop s = Raises s2 e ∧
        current_position (servo s2) = Some pos ∧
        target_position (servo s2) = target_position (servo s) ∧
        is_moving (servo s2) = is_moving (servo s))) ∧
  (∀ s1,
     ST3215Bus.read_position i s = Returns s1 None →
     stop s = Returns s1 tt ∧ servo s1 = servo s ∧
     ∃ t, trace s1 = trace s ++ t ∧ Forall (read_event i) t).
Proof.
  intros Hi i. split.
  - intros s1 pos Hr.
    destruct (read_position_cases i s Hi) as (s1' & pos' & Hr' & Hv & Hi1 & _).
    rewrite Hr in Hr'. injection Hr' as <- <-.
    split.
    + intros s2 Hm. rewrite stop_eq. fold i. rewrite Hr, Hm.
      pose proof (bus_only_move_to i pos 0 0 (located pos s1)) as Hb.
      rewrite Hm in Hb. cbn in Hb.
      split; [reflexivity|]. cbn. rewrite Hb. cbn.
      repeat split.
      rewrite bus_move_to_eq in Hm. unfold ST3215Bus._execute_with_retry in Hm.
      destruct (ST3215Bus.retry_loop _ _ 3 _ (located pos s1)) as [s3 [r|]|s3 e3|s3] eqn:Hl;
        try discriminate.
      * destruct (retry_loop_returns_called _ _ _ _ (located pos s1) _ _ Hi1 Hl)
          as (t & Ht & Hin).
        injection Hm as <-. cbn. cbn in Ht. exists (t ++ [CacheStore i pos]).
        split; [rewrite Ht, app_assoc; reflexivity | apply in_or_app; left; exact Hin].
      * destruct (execute_with_retry_returns_some _ _ _ _ _ Hl); discriminate.
    + intros s2 e Hm. rewrite stop_eq. fold i. rewrite Hr, Hm.
      pose proof (bus_only_move_to i pos 0 0 (located pos s1)) as Hb.
      rewrite Hm in Hb. cbn in Hb. rewrite Hb, Hv. repeat split.
  - intros s1 Hr.
    destruct (read_position_cases i s Hi) as (s1' & pos' & Hr' & Hv & _ & _ & Hx & _).
    rewrite Hr in Hr'. injection Hr' as <- <-.
    rewrite stop_eq. fold i. rewrite Hr. repeat split; auto.
Qed.


(** *** The tracked positions and the travel limits *)

Lemma bus_only_validate_position p :
  bus_only (_validate_position (World := World) p).
Proof.
  unfold _validate_position.
  repeat first [ apply bus_only_bind | apply bus_only_gets | apply bus_only_ret
               | apply bus_only_raise | progress intros
               | match goal with |- bus_only (if ?x then _ else _) => destruct x end ].
Qed.

Lemma bus_only_check_temperature :
  bus_only (_check_temperature (World := World)).
Proof.
  unfold _check_temperature.
  repeat first [ apply bus_only_bind | apply bus_only_gets | apply bus_only_ret
               | apply bus_only_raise | apply bus_only_emit | progress intros
               | match goal with
                 | |- bus_only (match ?x with _ => _ end) => destruct x
                 end ].
Qed.

Lemma validate_position_cases p s :
  (in_range (config (servo s)) p ∧ _validate_position p s = Returns s p) ∨
  (¬ in_range (config (servo s)) p ∧ ∃ m, _validate_position p s = Raises s (ValueError m)).
Proof.
  unfold _validate_position, in_range. expose. cbn.
  destruct (Z.ltb_spec p (position_min (config (servo s)))).
  - right. split; [lia|]. eexists. destruct s; reflexivity.
  - destruct (Z.gtb_spec p (position_max (config (servo s)))).
    + right. split; [lia|]. eexists. destruct s; reflexivity.
    + left. split; [lia|]. destruct s; reflexivity.
Qed.

Lemma within_limits_set_current c p v :
  in_range c p → within_limits c v → within_limits c (set_current_position (Some p) v).
Proof.
  intros Hp (Hc & H1 & H2). split; [exact Hc|]. split; cbn; intros q Hq.
  - injection Hq as <-. rewrite Hc. exact Hp.
  - apply H2. exact Hq.
Qed.

Lemma within_limits_set_target c p v :
  in_range c p → within_limits c v → within_limits c (set_target_position (Some p) v).
Proof.
  intros Hp (Hc & H1 & H2). split; [exact Hc|]. split; cbn; intros q Hq.
  - apply H1. exact Hq.
  - injection Hq as <-. rewrite Hc. exact Hp.
Qed.

Ltac other_field :=
  let v := fresh "v" in
  intros v (? & ? & ?); split; [assumption|]; split; cbn; assumption.

Ltac keeps :=
  repeat first
    [ assumption
    | progress intros
    | apply keeps_bus_only;
        first [ apply bus_only_ret | apply bus_only_raise | apply bus_only_gets
              | apply bus_only_emit
              | apply bus_only_move_to | apply bus_only_read_position
              | apply bus_only_read_status | apply bus_only_check_temperature
              | apply bus_only_connect | apply bus_only_ping_servo
              | apply bus_only_validate_position ]
    | apply keeps_modify_servo;
        first [ intros ?; apply within_limits_set_current; assumption
              | intros ?; apply within_limits_set_target; assumption
              | other_field ]
    | apply keeps_bind | apply keeps_try
    | match goal with
      | |- keeps _ (match ?x with _ => _ end) => destruct x
      end ].

(** From tracked positions within the limits: [move_to] and [set_position]
    keep them there whatever happens; [stop], the poll tick and the read of
    the connect phase do when the value [read_position] returns is within the
    limits. *)
Lemma positions_ok_kept s :
  positions_ok (servo s) →
  let c := config (servo s) in
  let i := servo_id c in
  (∀ p speed accel, positions_ok (servo (final (move_to p speed accel s)))) ∧
  (∀ p, positions_ok (servo (final (set_position p s)))) ∧
  ((∀ s1 p, ST3215Bus.read_position i s = Returns s1 (Some p) → in_range c p) →
   positions_ok (servo (final (stop s))) ∧
   ∀ eventtime, positions_ok (servo (final (_update_status_timer eventtime s)))) ∧
  ((∀ sa sb s1 p,
      ST3215Bus.connect s = Returns sa tt →
      ST3215Bus.ping_servo i sa = Returns sb true →
      ST3215Bus.read_position i sb = Returns s1 (Some p) → in_range c p) →
   positions_ok (servo (final (_handle_connect s)))).
Proof.
  intros Hok c i.
  assert (HI : within_limits c (servo s)) by (split; [reflexivity | exact Hok]).
  split; [|split; [|split]].
  - intros p speed accel. unfold move_to. rewrite run_bind.
    destruct (validate_position_cases p s) as [[Hp ->] | [_ [m ->]]]; [|exact Hok].
    fold c in Hp.
    match goal with
    | |- positions_ok (servo (final (?m s))) =>
        assert (Hk : keeps (within_limits c) m)
    end.
    { keeps. }
    apply Hk. exact HI.
  - intros p. unfold set_position. rewrite run_bind.
    destruct (validate_position_cases p s) as [[Hp ->] | [_ [m ->]]]; [|exact Hok].
    fold c in Hp.
    match goal with
    | |- positions_ok (servo (final (?m s))) =>
        assert (Hk : keeps (within_limits c) m) by keeps
    end.
    apply Hk. exact HI.
  - intros Hread. split.
    + unfold stop. rewrite run_bind. unfold gets at 1. fold c i. rewrite run_bind.
      pose proof (bus_only_read_position i s) as Hb.
      destruct (ST3215Bus.read_position i s) as [s1 [pos|]|s1 e|s1] eqn:Hr;
        cbn in Hb; try (cbn; rewrite Hb; exact Hok).
      pose proof (Hread _ _ eq_refl) as Hp.
      match goal with
      | |- positions_ok (servo (final (?m s1))) =>
          assert (Hk : keeps (within_limits c) m) by keeps
      end.
      apply Hk. rewrite Hb. exact HI.
    + intros eventtime. unfold _update_status_timer.
      rewrite run_bind. unfold gets at 1. fold c i. rewrite run_bind.
      pose proof (bus_only_read_position i s) as Hb.
      destruct (ST3215Bus.read_position i s) as [s1 pos|s1 e|s1] eqn:Hr; cbn in Hb.
      * rewrite (try_bind_returns _ _ _ s s1 pos Hr). rewrite <- run_bind.
        assert (Hp : ∀ p, pos = Some p → in_range c p).
        { intros p ->. eapply Hread. reflexivity. }
        match goal with
        | |- positions_ok (servo (final (?m s1))) =>
            assert (Hk : keeps (within_limits c) m)
        end.
        { destruct pos as [p|]; [specialize (Hp p eq_refl)|]; keeps. }
        apply Hk. rewrite Hb. exact HI.
      * rewrite run_try, run_bind, Hr. cbn. rewrite Hb.
        split; cbn; apply Hok.
      * rewrite run_try, run_bind, Hr. cbn. rewrite Hb. exact Hok.
  - intros Hread. unfold _handle_connect.
    rewrite run_bind. unfold gets at 1. fold c i.
    assert (Hh : ∀ (m : M World ()) s0,
               servo (final (try_except m
                  (λ e, raise (CommandError (MInitFailed (name c) (str e)))) s0)) =
               servo (final (m s0))).
    { intros m s0. rewrite run_try. destruct (m s0); reflexivity. }
    rewrite Hh, run_bind.
    pose proof (bus_only_connect s) as Hb1.
    destruct (ST3215Bus.connect s) as [sa []|sa e|sa] eqn:Hc; cbn in Hb1;
      try (cbn; rewrite Hb1; exact Hok).
    rewrite run_bind.
    pose proof (bus_only_ping_servo i sa) as Hb2.
    destruct (ST3215Bus.ping_servo i sa) as [sb present|sb e|sb] eqn:Hpg; cbn in Hb2;
      try (cbn; rewrite Hb2, Hb1; exact Hok).
    destruct present;
      [|unfold mbind, M_bind, bind; cbn; rewrite Hb2, Hb1; exact Hok].
    rewrite run_bind. unfold ret at 1. rewrite run_bind.
    pose proof (bus_only_read_position i sb) as Hb3.
    destruct (ST3215Bus.read_position i sb) as [s1 [pos|]|s1 e|s1] eqn:Hr; cbn in Hb3;
      try (cbn; rewrite Hb3, Hb2, Hb1; exact Hok).
    pose proof (Hread _ _ _ _ eq_refl Hpg Hr) as Hp.
    unfold mbind, M_bind, bind. cbn. rewrite Hb3, Hb2, Hb1.
    exact (proj2 (within_limits_set_target c pos _ Hp
                    (within_limits_set_current c pos _ Hp HI))).
Qed.


(** *** The poll tick *)

(** A tick never raises, and when it returns, it returns
    [eventtime + status_update_interval]. *)
Lemma update_status_timer_outcome eventtime s :
  match _update_status_timer eventtime s with
  | Returns _ wake =>
      wake = (eventtime + status_update_interval (config (servo s)))%float
  | Raises _ _ => False
  | Hangs _ => True
  end.
Proof.
  unfold _update_status_timer. rewrite run_bind. unfold gets at 1.
  rewrite run_bind, run_try.
  match goal with |- context[match ?b s with _ => _ end] => destruct (b s) end;
    cbn; auto.
Qed.

#[local] Arguments Z.abs : simpl never.
#[local] Arguments Z.gtb : simpl never.

(** A tick between two telemetry rounds: the position is read (from the
    device or from the cache), the motion flag is recomputed against the
    target with the dead band of 5, and [last_error] is cleared. *)
Lemma update_status_timer_position eventtime s :
  idle s →
  (5 <? eventtime - last_status_update (servo s))%float = false →
  ∃ s1 pos,
    ST3215Bus.read_position (servo_id (config (servo s))) s = Returns s1 pos ∧
    _update_status_timer eventtime s =
      Returns (mkSystem (world s1) (bus s1)
                 (set_last_error None (observed pos (servo s))) (trace s1))
              (eventtime + status_update_interval (config (servo s)))%float.
Proof.
  intros Hi Hq.
  destruct (read_position_cases (servo_id (config (servo s))) s Hi)
    as (s1 & pos & Hr & Hv & _).
  exists s1, pos. split; [exact Hr|].
  unfold _update_status_timer. rewrite run_bind. unfold gets at 1.
  rewrite run_bind, (try_bind_returns _ _ _ s s1 pos Hr).
  unfold observed.
  destruct pos as [p|]; [destruct (target_position (servo s)) eqn:Ht|];
    unfold try_except, mbind, M_bind, bind, gets, modify_servo, ret; cbn;
    rewrite ?Hv; cbn; rewrite ?Ht; cbn; rewrite ?Hv; cbn; rewrite Hq; cbn;
    rewrite ?Hv; reflexivity.
Qed.

#[local] Arguments Z.geb : simpl never.

Lemma check_temperature_swallowed (u : System World) :
  ∃ u', try_except _check_temperature (λ _, ret tt) u = Returns u' tt ∧
        world u' = world u ∧ bus u' = bus u ∧ servo u' = servo u ∧
        trace u' = trace u ++ guard_events (servo u).
Proof.
  unfold _check_temperature, guard_events. expose. cbn.
  destruct (cached_temperature (servo u)) as [t|]; cbn.
  - destruct (t >=? temperature_critical (config (servo u))); cbn.
    + eexists. split; [reflexivity|]. cbn. rewrite <- app_assoc. repeat split.
    + destruct (t >=? temperature_warning (config (servo u))); cbn.
      * eexists. split; [reflexivity|]. repeat split.
      * eexists. split; [reflexivity|]. repeat split. symmetry. apply app_nil_r.
  - eexists. split; [reflexivity|]. repeat split. symmetry. apply app_nil_r.
Qed.

(** A tick, once the position read has returned: the position is stored,
    and the rest depends on the float test and on [read_status]. *)
Lemma update_status_timer_read eventtime s s1 pos :
  let i := servo_id (config (servo s)) in
  ST3215Bus.read_position i s = Returns s1 pos → servo s1 = servo s →
  let u := mkSystem (world s1) (bus s1) (observed pos (servo s)) (trace s1) in
  let wake := (eventtime + status_update_interval (config (servo s)))%float in
  _update_status_timer eventtime s =
  if (5 <? eventtime - last_status_update (servo s))%float then
    match ST3215Bus.read_status i u with
    | Returns s2 status =>
        Returns (mkSystem (world s2) (bus s2)
                   (set_last_error None
                      (set_last_status_update eventtime (told status (servo s2))))
                   (trace s2 ++ guard_events (told status (servo s2))))
                wake
    | Raises s2 e =>
        Returns (mkSystem (world s2) (bus s2)
                   (set_last_error (Some (str e)) (servo s2)) (trace s2))
                wake
    | Hangs s2 => Hangs s2
    end
  else
    Returns (mkSystem (world s1) (bus s1)
               (set_last_error None (observed pos (servo s))) (trace s1))
            wake.
Proof.
  intros i Hr Hv u wake.
  unfold _update_status_timer. rewrite run_bind. unfold gets at 1. fold i.
  rewrite run_bind, (try_bind_returns _ _ _ s s1 pos Hr).
  assert (Hobs :
    (match pos with
     | Some pos0 =>
         modify_servo (set_current_position (Some pos0))
         ≫= λ _ : (),
              gets (λ s0 : System World, target_position (servo s0))
              ≫= λ target : option Z,
                   match target with
                   | Some target0 =>
                       modify_servo (set_is_moving (Z.abs (pos0 - target0) >? 5))
                   | None => ret ()
                   end
     | None => ret ()
     end) s1 = Returns u tt).
  { subst u. unfold observed. rewrite <- Hv.
    destruct pos as [p|]; [|destruct s1; reflexivity].
    rewrite run_bind. unfold modify_servo at 1. rewrite run_bind. unfold gets at 1.
    cbn. destruct (target_position (servo s1)); reflexivity. }
  rewrite run_try, run_bind, Hobs, run_bind. unfold gets at 1.
  assert (Hlast : last_status_update (servo u) = last_status_update (servo s)).
  { subst u. unfold observed. cbn.
    destruct pos as [p|]; [|reflexivity]. cbn.
    destruct (target_position (servo s)); reflexivity. }
  rewrite Hlast.
  destruct (5 <? eventtime - last_status_update (servo s))%float.
  - rewrite !run_bind.
    destruct (ST3215Bus.read_status i u) as [s2 status|s2 e|s2]; [| reflexivity..].
    rewrite run_bind. unfold modify_servo at 1.
    rewrite run_bind. unfold modify_servo at 1.
    rewrite run_bind. unfold modify_servo at 1.
    rewrite run_bind.
    destruct (check_temperature_swallowed
                (mkSystem (world s2) (bus s2) (told status (servo s2)) (trace s2)))
      as (u' & Hg & Hgw & Hgb & Hgs & Hgt).
    match goal with
    | |- context[try_except _check_temperature ?h ?x] =>
        change x with (mkSystem (world s2) (bus s2) (told status (servo s2)) (trace s2))
    end.
    rewrite Hg. cbn. rewrite Hgw, Hgb, Hgs, Hgt. reflexivity.
  - reflexivity.
Qed.

(** [_handle_connect], step by step. *)
Lemma handle_connect_eq s :
  let c := config (servo s) in
  let i := servo_id c in
  _handle_connect s =
  match ST3215Bus.connect s with
  | Returns sa _ =>
      match ST3215Bus.ping_servo i sa with
      | Returns sb true =>
          match ST3215Bus.read_position i sb with
          | Returns s1 (Some pos) =>
              Returns (mkSystem (world s1) (bus s1)
                         (set_target_position (Some pos)
                            (set_current_position (Some pos) (servo s1)))
                         (trace s1)) tt
          | Returns s1 None => Returns s1 tt
          | Raises s1 e => Raises s1 (CommandError (MInitFailed (name c) (str e)))
          | Hangs s1 => Hangs s1
          end
      | Returns sb false =>
          Raises sb (CommandError
                       (MInitFailed (name c) (MNotFound i (serial_port (bus sb)))))
      | Raises sb e => Raises sb (CommandError (MInitFailed (name c) (str e)))
      | Hangs sb => Hangs sb
      end
  | Raises sa e => Raises sa (CommandError (MInitFailed (name c) (str e)))
  | Hangs sa => Hangs sa
  end.
Proof.
  intros c i.
  unfold _handle_connect. rewrite run_bind. unfold gets at 1. fold c i.
  rewrite run_try, run_bind.
  destruct (ST3215Bus.connect s) as [sa []|sa e|sa]; try reflexivity.
  rewrite run_bind.
  destruct (ST3215Bus.ping_servo i sa) as [sb [|]|sb e|sb]; try reflexivity.
  rewrite run_bind. unfold ret at 1. rewrite run_bind.
  destruct (ST3215Bus.read_position i sb) as [s1 [pos|]|s1 e|s1]; reflexivity.
Qed.

Lemma observed_positions pos v :
  current_position (observed pos v) = stored pos (current_position v) ∧
  target_position (observed pos v) = target_position v.
Proof.
  unfold observed, stored. destruct pos as [p|]; [|split; reflexivity]. cbn.
  destruct (target_position v) eqn:E; cbn; rewrite ?E; split; reflexivity.
Qed.

(** Where the tracked positions of a poll tick come from. *)
Lemma update_status_timer_positions eventtime s s1 pos :
  ST3215Bus.read_position (servo_id (config (servo s))) s = Returns s1 pos →
  let v' := servo (final (_update_status_timer eventtime s)) in
  current_position v' = stored pos (current_position (servo s)) ∧
  target_position v' = target_position (servo s).
Proof.
  intros Hr v'. subst v'.
  pose proof (bus_only_read_position (servo_id (config (servo s))) s) as Hv.
  rewrite Hr in Hv. cbn in Hv.
  rewrite (update_status_timer_read eventtime s s1 pos Hr Hv). cbv zeta.
  set (u := mkSystem (world s1) (bus s1) (observed pos (servo s)) (trace s1)).
  destruct (5 <? eventtime - last_status_update (servo s))%float;
    [|cbn; apply observed_positions].
  pose proof (bus_only_read_status (servo_id (config (servo s))) u) as Hb.
  destruct (ST3215Bus.read_status _ u) as [s2 status|s2 e|s2]; cbn in Hb |- *;
    rewrite Hb; apply observed_positions.
Qed.

(** C7, amended.  Which tracked position each operation writes, and with
    what; nothing is assumed about the positions before the call.
    [move_to] validates first: it never writes the current position, and the
    target is either left alone or is the commanded position, which is then
    within the limits.  [set_position] validates first: within the limits
    both positions become the commanded one, outside the servo record is
    left alone.  [stop], the poll tick and the connect phase store what
    [read_position] returned, unvalidated: [stop] as current position and,
    once its move has returned, as target; the poll tick as current position
    only; the connect phase as both.  So a position that is outside the
    limits stays until it is overwritten.  From positions within the limits,
    [move_to] and [set_position] always end within them, and the three others
    do when the value read is within them. *)
Theorem validated_positions_within_limits s :
  let c := config (servo s) in
  let i := servo_id c in
  let v := servo s in
  (∀ p speed accel,
     let v' := servo (final (move_to p speed accel s)) in
     current_position v' = current_position v ∧
     (target_position v' = target_position v ∨
      in_range c p ∧ target_position v' = Some p) ∧
     (∀ s', move_to p speed accel s = Returns s' tt →
            in_range c p ∧ target_position (servo s') = Some p)) ∧
  (∀ p,
     let v' := servo (final (set_position p s)) in
     (in_range c p → current_position v' = Some p ∧ target_position v' = Some p) ∧
     (¬ in_range c p → v' = v)) ∧
  (∀ s1 pos,
     ST3215Bus.read_position i s = Returns s1 pos →
     let v' := servo (final (stop s)) in
     current_position v' = stored pos (current_position v) ∧
     (target_position v' = target_position v ∨
      target_position v' = stored pos (target_position v)) ∧
     (∀ s', stop s = Returns s' tt →
            target_position (servo s') = stored pos (target_position v))) ∧
  (∀ eventtime s1 pos,
     ST3215Bus.read_position i s = Returns s1 pos →
     let v' := servo (final (_update_status_timer eventtime s)) in
     current_position v' = stored pos (current_position v) ∧
     target_position v' = target_position v) ∧
  (let v' := servo (final (_handle_connect s)) in
   v' = v ∨
   ∃ sa sb s1 p,
     ST3215Bus.connect s = Returns sa tt ∧
     ST3215Bus.ping_servo i sa = Returns sb true ∧
     ST3215Bus.read_position i sb = Returns s1 (Some p) ∧
     current_position v' = Some p ∧ target_position v' = Some p) ∧
  (positions_ok v →
   (∀ p speed accel, positions_ok (servo (final (move_to p speed accel s)))) ∧
   (∀ p, positions_ok (servo (final (set_position p s)))) ∧
   ((∀ s1 p, ST3215Bus.read_position i s = Returns s1 (Some p) → in_range c p) →
    positions_ok (servo (final (stop s))) ∧
    ∀ eventtime, positions_ok (servo (final (_update_status_timer eventtime s)))) ∧
   ((∀ sa sb s1 p,
       ST3215Bus.connect s = Returns sa tt →
       ST3215Bus.ping_servo i sa = Returns sb true →
       ST3215Bus.read_position i sb = Returns s1 (Some p) → in_range c p) →
    positions_ok (servo (final (_handle_connect s))))).
Proof.
  intros c i v.
  split; [|split; [|split; [|split; [|split]]]].
  - intros p speed accel v'. subst v'.
    assert (Ho : match move_to p speed accel s with
                 | Returns s' _ =>
                     in_range c p ∧
                     servo s' = set_is_moving true (set_target_position (Some p) v)
                 | Raises s' _ | Hangs s' => servo s' = v
                 end).
    { unfold move_to. rewrite run_bind.
      destruct (validate_position_cases p s) as [[Hp ->] | [_ [m ->]]];
        [|reflexivity].
      fold c in Hp. rewrite run_bind.
      pose proof (bus_only_check_temperature s) as Hg.
      destruct (_check_temperature s) as [sg []|sg e|sg]; cbn in Hg; try exact Hg.
      rewrite run_bind. unfold gets at 1. rewrite run_bind.
      match goal with
      | |- context[ST3215Bus.move_to ?a ?b ?x ?y sg] =>
          pose proof (bus_only_move_to a b x y sg) as Hb;
          destruct (ST3215Bus.move_to a b x y sg) as [s2 []|s2 e|s2]
      end; cbn in Hb; try (rewrite Hb; exact Hg).
      unfold mbind, M_bind, bind. cbn. rewrite Hb, Hg.
      split; [exact Hp | reflexivity]. }
    destruct (move_to p speed accel s) as [s' []|s' e|s']; cbn.
    + destruct Ho as [Hp Hs']. rewrite Hs'. cbn.
      split; [reflexivity|]. split; [right; split; [exact Hp | reflexivity]|].
      intros s'' [= <-]. rewrite Hs'. split; [exact Hp | reflexivity].
    + rewrite Ho. split; [reflexivity|]. split; [left; reflexivity | discriminate].
    + rewrite Ho. split; [reflexivity|]. split; [left; reflexivity | discriminate].
  - intros p v'. subst v'. unfold set_position. rewrite run_bind.
    destruct (validate_position_cases p s) as [[Hp ->] | [Hn [m ->]]].
    + split; [intros _; split; reflexivity | intros Hc; contradiction].
    + split; [intros Hc; contradiction | intros _; reflexivity].
  - intros s1 pos Hr v'. subst v'. rewrite stop_eq. fold c i. rewrite Hr.
    pose proof (bus_only_read_position i s) as Hv. rewrite Hr in Hv. cbn in Hv.
    destruct pos as [pos|];
      [|cbn; rewrite Hv; split; [reflexivity|];
        split; [left; reflexivity | intros s' [= <-]; rewrite Hv; reflexivity]].
    pose proof (bus_only_move_to i pos 0 0 (located pos s1)) as Hb.
    destruct (ST3215Bus.move_to i pos 0 0 (located pos s1)) as [s2 []|s2 e|s2];
      cbn in Hb; cbn; rewrite ?Hb, ?Hv.
    + split; [reflexivity|]. split; [right; reflexivity|].
      intros s' [= <-]. reflexivity.
    + split; [reflexivity|]. split; [left; reflexivity | discriminate].
    + split; [reflexivity|]. split; [left; reflexivity | discriminate].
  - intros eventtime s1 pos Hr.
    exact (update_status_timer_positions eventtime s s1 pos Hr).
  - intros v'. subst v'. rewrite handle_connect_eq. fold c i.
    pose proof (bus_only_connect s) as Hb1.
    destruct (ST3215Bus.connect s) as [sa []|sa e|sa] eqn:Hc; cbn in Hb1;
      [|left; exact Hb1..].
    pose proof (bus_only_ping_servo i sa) as Hb2.
    destruct (ST3215Bus.ping_servo i sa) as [sb [|]|sb e|sb] eqn:Hpg; cbn in Hb2;
      [|left; cbn; rewrite Hb2; exact Hb1..].
    pose proof (bus_only_read_position i sb) as Hb3.
    destruct (ST3215Bus.read_position i sb) as [s1 [pos|]|s1 e|s1] eqn:Hrd;
      cbn in Hb3; [|left; cbn; rewrite Hb3, Hb2; exact Hb1..].
    right. exists sa, sb, s1, pos.
    split; [reflexivity|]. split; [exact Hpg|]. split; [exact Hrd|].
    split; reflexivity.
  - exact (positions_ok_kept s).
Qed.

End ServoProperties.

(* ================================================================= *)
(** ** Runs on the simulated bus *)

Section Runs.
Import Simulated.

Lemma healthy_fault_free : fault_free healthy.
Proof.
  intros [ok fs pos temp] [Hp Hf]. cbn in Hp, Hf. subst ok fs.
  split; [|split].
  - intros port. eexists. split; [reflexivity | split; reflexivity].
  - split; reflexivity.
  - intros p. unfold call, driver, faults.
    destruct (answer p (mkWorld true [] pos temp)) as [w' r] eqn:E.
    exists w', r. split; [reflexivity|].
    destruct p; cbn in E; injection E as <- _; split; reflexivity.
Qed.

Lemma check_temperature_thresholds_witness :
  cached_temperature (servo overheated) = Some 85 ∧
  temperature_warning (config (servo overheated)) <
    temperature_critical (config (servo overheated)) ∧
  ST3215Servo._check_temperature overheated =
    Raises (logged [Log Error (MTemperatureCritical "st3215 arm" 85);
                    InvokeShutdown (MTemperatureCritical "st3215 arm" 85)]
                   overheated)
           (PyException (MTemperatureCritical "st3215 arm" 85)).
Proof.
  split; [reflexivity|]. split; [cbn; lia|].
  apply (check_temperature_thresholds overheated 85); [reflexivity | cbn; lia..].
Defined.

Lemma move_to_rejects_out_of_range_witness :
  (4000 < position_min (config (servo at_rest)) ∨
   position_max (config (servo at_rest)) < 4000) ∧
  ∃ m, ST3215Servo.move_to 4000 None None at_rest = Raises at_rest (ValueError m) ∧
       (m = MBelowMinimum 4000 (position_min (config (servo at_rest))) ∨
        m = MAboveMaximum 4000 (position_max (config (servo at_rest)))).
Proof.
  split; [right; cbn; lia|].
  apply (move_to_rejects_out_of_range 4000 None None at_rest). right. cbn. lia.
Defined.


Lemma read_position_cache_fallback_witness :
  idle three_faults ∧
  ∃ s2, ST3215Bus.read_position 1 three_faults = Returns s2 (Some 2048) ∧
        position_cache (bus s2) = position_cache (bus three_faults).
Proof.
  split; [reflexivity|].
  destruct (read_position_cache_fallback 1 three_faults eq_refl) as (_ & Hfall & _).
  apply (Hfall
           (final (ST3215Bus._execute_with_retry (OpReadPosition 1) (ReadPosition 1) 3
                     three_faults))
           (ST3215BusError
              (MFailedAfter (OpReadPosition 1) 3 (MText "no status packet")))).
  vm_compute. reflexivity.
Defined.

Lemma move_to_in_range_succeeds_witness :
  fault_free healthy ∧ healthy (world at_rest) ∧ idle at_rest ∧ wf_bus (bus at_rest) ∧
  in_range (config (servo at_rest)) 2048 ∧
  (∀ t, cached_temperature (servo at_rest) = Some t →
        t < temperature_critical (config (servo at_rest))) ∧
  ∃ s' t,
    ST3215Servo.move_to 2048 None (Some 9999) at_rest = Returns s' tt ∧
    target_position (servo s') = Some 2048 ∧ is_moving (servo s') = true ∧
    position_cache (bus s') !! 1 = Some 2048 ∧
    trace s' = trace at_rest ++ t ∧ calls t = [MoveTo 1 2048 3400 254].
Proof.
  assert (Hh : healthy (world at_rest)) by (split; reflexivity).
  assert (Hw : wf_bus (bus at_rest)) by (intros _; discriminate).
  assert (Hr : in_range (config (servo at_rest)) 2048) by (split; cbn; lia).
  assert (Hg : ∀ t, cached_temperature (servo at_rest) = Some t →
                    t < temperature_critical (config (servo at_rest)))
    by (intros t; discriminate).
  split; [exact healthy_fault_free|]. split; [exact Hh|]. split; [reflexivity|].
  split; [exact Hw|]. split; [exact Hr|]. split; [exact Hg|].
  destruct (move_to_in_range_succeeds healthy 2048 None (Some 9999) at_rest
              healthy_fault_free Hh eq_refl Hw Hr Hg)
    as (s' & t & Hm & Ht & Hmv & Hc & Htr & Hcalls & _).
  exists s', t. exact (conj Hm (conj Ht (conj Hmv (conj Hc (conj Htr Hcalls))))).
Defined.

Lemma stop_holds_position_or_does_nothing_witness :
  idle at_rest ∧
  ∃ s3, ST3215Servo.stop at_rest = Returns s3 tt ∧
        current_position (servo s3) = Some 1234 ∧
        target_position (servo s3) = Some 1234 ∧
        is_moving (servo s3) = false.
Proof.
  split; [reflexivity|].
  destruct (stop_holds_position_or_does_nothing at_rest eq_refl) as [Hread _].
  pose (s1 := final (ST3215Bus.read_position 1 at_rest)).
  pose (s2 := final (ST3215Bus.move_to 1 1234 0 0 (located 1234 s1))).
  destruct (Hread s1 1234 ltac:(vm_compute; reflexivity)) as [Hmove _].
  destruct (Hmove s2 ltac:(vm_compute; reflexivity)) as (Hs & Hc & Ht & Hm & _).
  exists (halted 1234 s2). exact (conj Hs (conj Hc (conj Ht Hm))).
Defined.

Lemma validated_positions_within_limits_witness :
  current_position (servo strayed) = Some 100 ∧
  ¬ in_range (config (servo strayed)) 100 ∧
  (∃ s', ST3215Servo.move_to 2048 None None strayed = Returns s' tt ∧
         in_range (config (servo strayed)) 2048 ∧
         target_position (servo s') = Some 2048 ∧
         current_position (servo s') = Some 100) ∧
  (current_position (servo (final (ST3215Servo.set_position 600 strayed))) = Some 600 ∧
   target_position (servo (final (ST3215Servo.set_position 600 strayed))) = Some 600) ∧
  (∃ s1, ST3215Bus.read_position 1 strayed = Returns s1 (Some 100)) ∧
  (∃ s', ST3215Servo.stop strayed = Returns s' tt ∧
         current_position (servo s') = Some 100 ∧
         target_position (servo s') = Some 100) ∧
  current_position
    (servo (final (ST3215Servo._update_status_timer 2 strayed))) = Some 100 ∧
  target_position
    (servo (final (ST3215Servo._update_status_timer 2 strayed))) =
    target_position (servo strayed).
Proof.
  pose proof (validated_positions_within_limits strayed) as H. cbv zeta in H.
  destruct H as (Hm & Hs & Hst & Hp & _).
  pose (s1 := final (ST3215Bus.read_position 1 strayed)).
  assert (Er : ST3215Bus.read_position 1 strayed = Returns s1 (Some 100))
    by (vm_compute; reflexivity).
  split; [reflexivity|].
  split; [intros [Hlo _]; vm_compute in Hlo; apply Hlo; reflexivity|].
  split; [|split; [|split; [|split]]].
  - pose (s' := final (ST3215Servo.move_to 2048 None None strayed)).
    assert (E : ST3215Servo.move_to 2048 None None strayed = Returns s' tt)
      by (vm_compute; reflexivity).
    destruct (Hm 2048 None None) as (Hcur & _ & Hret).
    destruct (Hret s' E) as (Hin & Htg).
    exists s'. split; [exact E|]. split; [exact Hin|]. split; [exact Htg|].
    exact Hcur.
  - destruct (Hs 600) as (Hin & _). apply Hin. split; vm_compute; discriminate.
  - exists s1. exact Er.
  - pose (s' := final (ST3215Servo.stop strayed)).
    assert (E : ST3215Servo.stop strayed = Returns s' tt) by (vm_compute; reflexivity).
    destruct (Hst s1 (Some 100) Er) as (Hcur & _ & Hret).
    exists s'. split; [exact E|]. split; [exact Hcur | exact (Hret s' E)].
  - exact (Hp 2%float s1 (Some 100) Er).
Defined.

Lemma move_to_without_temperature_reading_witness :
  cached_temperature (servo at_rest) = None ∧
  ST3215Servo._check_temperature at_rest = Returns at_rest tt.
Proof.
  split; [reflexivity|].
  apply (move_to_without_temperature_reading at_rest). reflexivity.
Defined.

(** *** Where the code departs from the sentences of the specification *)

(** A position within the limits, a bus without faults, and [move_to] fails
    all the same: the temperature guard has tripped. *)
Lemma move_to_in_range_fails_when_overheated :
  fault_free healthy ∧ healthy (world overheated) ∧ idle overheated ∧
  wf_bus (bus overheated) ∧
  in_range (config (servo overheated)) 2000 ∧
  ST3215Servo.move_to 2000 None None overheated =
    Raises (logged [Log Error (MTemperatureCritical "st3215 arm" 85);
                    InvokeShutdown (MTemperatureCritical "st3215 arm" 85)]
                   overheated)
           (PyException (MTemperatureCritical "st3215 arm" 85)) ∧
  target_position
    (servo (final (ST3215Servo.move_to 2000 None None overheated))) = None.
Proof.
  split; [exact healthy_fault_free|]. split; [split; reflexivity|].
  split; [reflexivity|]. split; [intros _; discriminate|].
  split; [split; cbn; lia|]. split; vm_compute; reflexivity.
Qed.

(** The position read answers 1234, the three attempts of the move that
    follows fail: [stop] raises, the target is still 3000 and the motion flag
    is still set. *)
Lemma stop_keeps_target_when_move_fails :
  idle move_fails ∧
  (∃ s1, ST3215Bus.read_position 1 move_fails = Returns s1 (Some 1234)) ∧
  ∃ s2 m,
    ST3215Servo.stop move_fails = Raises s2 (ST3215BusError m) ∧
    current_position (servo s2) = Some 1234 ∧
    target_position (servo s2) = Some 3000 ∧
    is_moving (servo s2) = true.
Proof.
  split; [reflexivity|]. split.
  - eexists. vm_compute. reflexivity.
  - eexists _, _. split; [vm_compute; reflexivity|].
    split; [reflexivity|]. split; reflexivity.
Qed.

(** The servo reports 100, the limits are 500 to 3500: the poll tick stores
    100 as the current position. *)
Lemma poll_stores_position_outside_limits :
  positions_ok (servo out_of_travel) ∧
  current_position
    (servo (final (ST3215Servo._update_status_timer 1 out_of_travel))) = Some 100 ∧
  ¬ positions_ok
      (servo (final (ST3215Servo._update_status_timer 1 out_of_travel))).
Proof.
  assert (E : current_position
                (servo (final (ST3215Servo._update_status_timer 1 out_of_travel))) =
              Some 100) by (vm_compute; reflexivity).
  split; [split; intros p; discriminate|]. split; [exact E|].
  intros [H _]. specialize (H 100 E). vm_compute in H.
  destruct H as [H _]. apply H. reflexivity.
Qed.

(** C8: a poll tick must come back with its next wake time,
    [eventtime + status_update_interval], whatever goes wrong during the
    tick.  With the cable pulled it does not come back at all: the position
    read exhausts its attempts and leaves the bus disconnected, the telemetry
    round that is due takes [self.lock] in [read_temperature] and, the bus
    being disconnected, calls [connect], which waits for the same lock. *)
Theorem poll_tick_blocks_on_unplugged_port :
  ∃ s',
    ST3215Servo._update_status_timer 10 unplugged = Hangs s' ∧
    lock_held (bus s') = true ∧ connected (bus s') = false ∧
    last_error (servo s') = None.
Proof.
  eexists. split; [vm_compute; reflexivity|].
  split; [reflexivity|]. split; reflexivity.
Qed.

(** C9: every use of the port and every store into the position cache
    should happen with [self.lock] held.  The single-attempt reads do so; a
    move through the retry loop calls the driver and stores into the cache
    without ever taking the lock. *)
Theorem retried_move_runs_outside_the_lock :
  trace (final (ST3215Bus.move_to 1 2048 0 0 at_rest)) =
    [Call (MoveTo 1 2048 0 0); CacheStore 1 2048] ∧
  locked_io false (trace (final (ST3215Bus.move_to 1 2048 0 0 at_rest))) = false ∧
  trace (final (ST3215Bus.read_temperature 1 at_rest)) =
    [Acquire; Call (ReadTemperature 1); Release] ∧
  locked_io false (trace (final (ST3215Bus.read_temperature 1 at_rest))) = true.
Proof.
  split; [vm_compute; reflexivity|]. split; [vm_compute; reflexivity|].
  split; vm_compute; reflexivity.
Qed.

End Runs.

(* ================================================================= *)
(** ** Further properties of the bus manager *)

Section MoreBusProperties.
Context {World : Type} `{drv : Driver World}.
Implicit Types s : System World.
Import ST3215Bus.

Lemma idle_bus_eta (b : Bus) :
  lock_held b = false → set_lock_held false (set_lock_held true b) = b.
Proof. destruct b. cbn. intros ->. reflexivity. Qed.

(** X1: [connect] on a connected bus does nothing but take and give back the
    lock.  On a disconnected bus it opens the port once: on success the bus
    is connected with a new driver object, the reconnect counter is 0 and
    [last_error] is cleared; on failure [ST3215BusError] is raised with the
    cause in its message and in [last_error], the bus stays disconnected and
    the old driver object stays.  The lock is free afterwards either way. *)
Theorem connect_opens_the_port_once s :
  idle s →
  let port := serial_port (bus s) in
  (connected (bus s) = true →
   connect s = Returns (logged [Acquire; Release] s) tt) ∧
  (connected (bus s) = false →
   (∀ w, open_port port (world s) = (w, inr tt) →
      ∃ s', connect s = Returns s' tt ∧ world s' = w ∧ idle s' ∧
            connected (bus s') = true ∧ st3215 (bus s') = Some (ST3215 port) ∧
            reconnect_attempt (bus s') = 0%nat ∧ bus_last_error (bus s') = None ∧
            position_cache (bus s') = position_cache (bus s) ∧
            trace s' = trace s ++ [Acquire; Open port; Release]) ∧
   (∀ w err, open_port port (world s) = (w, inl err) →
      ∃ s', connect s =
              Raises s' (ST3215BusError (MConnectFailed port (MText err))) ∧
            world s' = w ∧ idle s' ∧
            connected (bus s') = false ∧ st3215 (bus s') = st3215 (bus s) ∧
            bus_last_error (bus s') = Some (MText err) ∧
            position_cache (bus s') = position_cache (bus s) ∧
            trace s' = trace s ++
              [Acquire; Open port; Log Error (MConnectFailed port (MText err));
               Release])).
Proof.
  intros H port. unfold idle in H. split.
  - intros Hc. unfold connect, with_lock. rewrite H. expose. cbn. rewrite Hc. cbn.
    rewrite (idle_bus_eta _ H), <- app_assoc. reflexivity.
  - intros Hc. split.
    + intros w Ho. unfold connect, with_lock. rewrite H. expose. cbn.
      rewrite Hc. cbn. fold port. rewrite Ho. cbn.
      eexists. split; [reflexivity|]. cbn. rewrite <- !app_assoc.
      repeat split.
    + intros w err Ho. unfold connect, with_lock. rewrite H. expose. cbn.
      rewrite Hc. cbn. fold port. rewrite Ho. cbn.
      eexists. split; [reflexivity|]. cbn. rewrite <- !app_assoc.
      repeat split.
Qed.

(** X2: [disconnect] always returns with the lock free, the driver object
    dropped and the cache untouched; a bus that had a driver object is then
    disconnected and its port has been closed once.  A second [disconnect]
    only takes and gives back the lock: the port is not closed again. *)
Theorem disconnect_closes_the_port_once s :
  idle s →
  ∃ s', disconnect s = Returns s' tt ∧ idle s' ∧
        st3215 (bus s') = None ∧
        position_cache (bus s') = position_cache (bus s) ∧
        servo s' = servo s ∧
        (st3215 (bus s) ≠ None →
         connected (bus s') = false ∧ world s' = close_port (world s) ∧
         trace s' = trace s ++ [Acquire; ClosePort; Release]) ∧
        (st3215 (bus s) = None → s' = logged [Acquire; Release] s) ∧
        disconnect s' = Returns (logged [Acquire; Release] s') tt.
Proof.
  unfold idle. intros H.
  assert (Hnone : ∀ u : System World,
            lock_held (bus u) = false → st3215 (bus u) = None →
            disconnect u = Returns (logged [Acquire; Release] u) tt).
  { intros u Hl Hn. unfold disconnect, with_lock. rewrite Hl. expose. cbn.
    rewrite Hn. cbn. rewrite (idle_bus_eta _ Hl), <- app_assoc. reflexivity. }
  destruct (st3215 (bus s)) as [h|] eqn:Hh.
  - assert (E : disconnect s =
                Returns (mkSystem (close_port (world s))
                           (set_connected false (set_st3215 None (bus s)))
                           (servo s) (trace s ++ [Acquire; ClosePort; Release])) tt).
    { unfold disconnect, with_lock. rewrite H. expose. cbn. rewrite Hh. cbn.
      rewrite <- !app_assoc. cbn. destruct (bus s). cbn in *. subst. reflexivity. }
    eexists. split; [exact E|]. cbn.
    repeat split; try congruence; try exact H.
    apply Hnone; [exact H | reflexivity].
  - exists (logged [Acquire; Release] s). split; [apply Hnone; assumption|].
    cbn. repeat split; auto; congruence.
Qed.

(** X3: the retry wrapper, for any [max_retries], started with the lock
    free: it comes back (it cannot block), with the lock free, the servo
    record, the position cache and the port name as they were; the only
    primitive it calls is the one it was given; the only exception that leaves
    it is [ST3215BusError], whose message carries [max_retries] and the text
    of the last failure, which is also in [last_error]. *)
Theorem execute_with_retry_is_confined op f n s :
  idle s →
  let o := _execute_with_retry op f n s in
  (∀ s', o ≠ Hangs s') ∧
  idle (final o) ∧ servo (final o) = servo s ∧
  position_cache (bus (final o)) = position_cache (bus s) ∧
  serial_port (bus (final o)) = serial_port (bus s) ∧
  (∃ t, trace (final o) = trace s ++ t ∧ Forall (bus_event f) t) ∧
  (∀ s' e, o = Raises s' e →
     ∃ cause, e = ST3215BusError (MFailedAfter op n cause) ∧
              bus_last_error (bus s') = Some cause).
Proof.
  intros H o. pose proof (execute_with_retry_cases op f n s H) as Hc.
  fold o in Hc. destruct o as [s1 r|s1 e|s1]; [| |contradiction].
  - destruct Hc as [(Hv & Hca & Hp & Hl) Hx]. cbn.
    split; [discriminate|]. repeat split; auto. discriminate.
  - destruct Hc as ((Hv & Hca & Hp & Hl) & Hx & Hcause). cbn.
    split; [discriminate|]. repeat split; auto.
    intros s' e' [= <- <-]. exact Hcause.
Qed.

Lemma calls_app t1 t2 : calls (t1 ++ t2) = calls t1 ++ calls t2.
Proof. unfold calls. apply omap_app. Qed.

Lemma calls_cycle port c : reconnect_cycle port c → calls c = [].
Proof.
  intros (d & c' & -> & Hd & Hc).
  destruct Hd as [-> | ->]; destruct Hc as [-> | [-> | [m ->]]]; reflexivity.
Qed.

(** One attempt calls the driver at most once and never sleeps. *)
Lemma attempt_calls_once (f : primitive) s :
  idle s →
  ∃ t, trace (final (attempt_body f s)) = trace s ++ t ∧
       sleeps t = 0%nat ∧ (length (calls t) ≤ 1)%nat.
Proof.
  unfold idle. intros H.
  unfold attempt_body, invoke, connect, with_lock. expose.
  crunch; repeat (rewrite <- app_assoc; cbn);
    first [ exists []; split; [symmetry; apply app_nil_r | cbn; split; [reflexivity | lia]]
          | eexists; split; [reflexivity | cbn; split; [reflexivity | lia]] ].
Qed.

Lemma retry_loop_bound op f n k m s :
  idle s → (k + m = n)%nat →
  match retry_loop op f n (seq k m) s with
  | Returns s' r =>
      ∃ t, trace s' = trace s ++ t ∧
           (r = None → m = 0%nat) ∧
           (∀ x, r = Some x → (sleeps t < m)%nat) ∧
           (length (calls t) ≤ m)%nat
  | Raises s' e =>
      ∃ t, trace s' = trace s ++ t ∧
           (sleeps t + 1 = m)%nat ∧ (length (calls t) ≤ m)%nat
  | Hangs _ => False
  end.
Proof.
  revert k s. induction m as [|m IH]; intros k s Hi Hn.
  - cbn. exists []. split; [symmetry; apply app_nil_r|].
    split; [reflexivity|]. split; [discriminate | cbn; lia].
  - cbn [seq]. rewrite retry_loop_cons.
    pose proof (attempt_cases f s Hi) as Hc.
    destruct (attempt_calls_once f s Hi) as (t1 & Ht1 & Hs1 & Hc1).
    destruct (attempt_body f s) as [s1 r|s1 e|s1]; [| |contradiction]; cbn in Ht1.
    + exists t1. split; [exact Ht1|]. split; [discriminate|].
      split; [intros; lia | lia].
    + destruct Hc as [Hst _]. assert (Hi1 : idle s1) by apply Hst.
      destruct (k <? n - 1)%nat eqn:Hlt.
      * apply Nat.ltb_lt in Hlt.
        rewrite on_failure_retry by (apply Nat.ltb_lt; exact Hlt).
        set (w := MAttemptFailed op (k + 1) n (str e)).
        destruct (reconnect_cases (noted Warning w e s1) Hi1)
          as (s2 & c & -> & Ht2 & Hcyc & Hs2).
        assert (Hi2 : idle s2) by apply Hs2.
        specialize (IH (S k) s2 Hi2 ltac:(lia)).
        pose proof (sleeps_cycle _ _ Hcyc) as Hsc.
        pose proof (calls_cycle _ _ Hcyc) as Hcc.
        assert (Htr : ∀ t3, trace s2 ++ t3 =
                      trace s ++ ((t1 ++ [Log Warning w]) ++ c) ++ t3).
        { intros t3. rewrite Ht2. cbn. rewrite Ht1, <- !app_assoc. reflexivity. }
        assert (Hsl : ∀ t3, sleeps (((t1 ++ [Log Warning w]) ++ c) ++ t3) =
                            (1 + sleeps t3)%nat).
        { intros t3. rewrite !sleeps_app, Hs1, Hsc. reflexivity. }
        assert (Hcl : ∀ t3, length (calls (((t1 ++ [Log Warning w]) ++ c) ++ t3)) =
                            (length (calls t1) + length (calls t3))%nat).
        { intros t3. rewrite !calls_app, Hcc, !length_app. cbn. lia. }
        destruct (retry_loop op f n (seq (S k) m) s2) as [s3 r3|s3 e3|s3];
          [| |contradiction].
        -- destruct IH as (t3 & Ht3 & Hnone & Hsome & Hcalls).
           eexists. split; [rewrite Ht3; apply Htr|].
           split; [intros E; specialize (Hnone E); lia|].
           split; [intros x E; rewrite Hsl; specialize (Hsome x E); lia|].
           rewrite Hcl. lia.
        -- destruct IH as (t3 & Ht3 & Hsl3 & Hcalls).
           eexists. split; [rewrite Ht3; apply Htr|].
           split; [rewrite Hsl; lia | rewrite Hcl; lia].
      * apply Nat.ltb_ge in Hlt.
        rewrite on_failure_final by (apply Nat.ltb_ge; exact Hlt).
        exists (t1 ++ [Log Error (MFailedAfter op n (str e))]).
        split; [cbn; rewrite Ht1, <- app_assoc; reflexivity|].
        split.
        { rewrite sleeps_app, Hs1.
          change (sleeps [Log Error (MFailedAfter op n (str e))]) with 0%nat. lia. }
        rewrite calls_app, length_app.
        change (calls [Log Error (MFailedAfter op n (str e))]) with (@nil primitive).
        cbn. lia.
Qed.

(** X4: whatever [max_retries] is, the retry wrapper calls the primitive at
    most [max_retries] times.  A run that ends in [ST3215BusError] has slept
    exactly [max_retries - 1] times, a run that returns a result at most that
    often; nothing at all is returned ([None]) only for [max_retries = 0],
    where the loop body never runs. *)
Theorem retry_attempts_and_backoffs_are_bounded op f n s :
  idle s →
  match _execute_with_retry op f n s with
  | Returns s' r =>
      ∃ t, trace s' = trace s ++ t ∧
           (r = None ↔ n = 0%nat) ∧
           (sleeps t ≤ n - 1)%nat ∧ (length (calls t) ≤ n)%nat
  | Raises s' e =>
      ∃ t, trace s' = trace s ++ t ∧
           (1 ≤ n)%nat ∧ sleeps t = (n - 1)%nat ∧ (length (calls t) ≤ n)%nat
  | Hangs _ => False
  end.
Proof.
  intros Hi. unfold _execute_with_retry.
  pose proof (retry_loop_bound op f n 0 n s Hi eq_refl) as Hb.
  destruct n as [|n].
  - cbn in *. destruct Hb as (t & Ht & _ & _ & Hc). exists t.
    split; [exact Ht|]. split; [tauto|].
    destruct t as [|ev t]; [cbn; lia|].
    exfalso. apply (f_equal (@length event)) in Ht.
    rewrite length_app in Ht. cbn in Ht. lia.
  - destruct (retry_loop op f (S n) (seq 0 (S n)) s) as [s1 r|s1 e|s1];
      [| |contradiction].
    + destruct Hb as (t & Ht & Hnone & Hsome & Hc). exists t.
      split; [exact Ht|].
      split; [split; [intros E; specialize (Hnone E); lia | discriminate]|].
      split; [|exact Hc].
      destruct r as [x|]; [specialize (Hsome x eq_refl); lia|].
      specialize (Hnone eq_refl). lia.
    + destruct Hb as (t & Ht & Hsl & Hc). exists t.
      split; [exact Ht|]. split; [lia|]. split; [lia | exact Hc].
Qed.

Lemma attempt_success_state f s s' r :
  idle s → attempt_body f s = Returns s' r →
  connected (bus s') = true ∧ st3215 (bus s') ≠ None ∧
  reconnect_attempt (bus s') = 0%nat ∧
  ∃ t, trace s' = trace s ++ t ++ [Call f].
Proof.
  intros Hi Ha.
  destruct (attempt_wf f s s' r Hi Ha) as [Hc Hh].
  destruct (attempt_returns_called f s s' r Hi Ha) as (t & Ht).
  split; [exact Hc|]. split; [exact Hh|]. split; [|exists t; exact Ht].
  revert Ha. unfold idle in Hi.
  unfold attempt_body, invoke, connect, with_lock. expose.
  crunch; intros [= <- <-]; cbn; first [reflexivity | assumption | congruence].
Qed.

Lemma retry_success_state op f n s s' r :
  idle s →
  _execute_with_retry op f n s = Returns s' (Some r) →
  connected (bus s') = true ∧ st3215 (bus s') ≠ None ∧
  reconnect_attempt (bus s') = 0%nat ∧
  ∃ t, trace s' = trace s ++ t ++ [Call f].
Proof.
  unfold _execute_with_retry. generalize (seq 0 n) as attempts.
  intros attempts. revert s.
  induction attempts as [|a rest IH]; intros s Hi; [discriminate|].
  rewrite retry_loop_cons.
  pose proof (attempt_cases f s Hi) as Hc.
  destruct (attempt_body f s) as [s1 r1|s1 e|s1] eqn:Ha; [| |contradiction].
  - intros [= <- _]. exact (attempt_success_state f s s1 r1 Hi Ha).
  - destruct (a <? n - 1)%nat eqn:Hlt.
    + destruct (failed_attempt_recovers op f n a s s1 e Hi Hlt Ha)
        as (s2 & t & c & -> & Hs2 & Ht2 & _).
      intros Hr.
      destruct (IH s2 (proj2 (proj2 (proj2 Hs2))) Hr) as (H1 & H2 & H3 & t3 & Ht3).
      split; [exact H1|]. split; [exact H2|]. split; [exact H3|].
      exists ((t ++ c) ++ t3). rewrite Ht3, Ht2, <- !app_assoc. reflexivity.
    + rewrite on_failure_final by assumption. discriminate.
Qed.

Lemma read_telemetry_connected p none s :
  idle s → connected (bus s) = true → st3215 (bus s) ≠ None →
  read_telemetry p none s =
  Returns (polled p none s) (snd (single_read p none (world s))).
Proof.
  unfold idle. intros H Hc Hh.
  unfold read_telemetry, invoke, with_lock, polled, single_read. rewrite H.
  expose. cbn. rewrite Hc. cbn.
  destruct (st3215 (bus s)); [|contradiction]. cbn.
  destruct (call p (world s)) as [w [err|v]]; cbn;
    rewrite (idle_bus_eta _ H), <- !app_assoc; reflexivity.
Qed.

Lemma read_telemetry_disconnected p none s :
  idle s → connected (bus s) = false →
  read_telemetry p none s = Hangs (stuck s).
Proof.
  unfold idle. intros H Hc.
  unfold read_telemetry, connect, with_lock, stuck. rewrite H.
  expose. cbn. rewrite Hc. reflexivity.
Qed.

(** X6: the telemetry reads on a connected bus.  Each takes the lock, calls
    its primitive once and gives the lock back; it returns what the device
    answered, or [None] when the call failed, and never raises.  Bus record and
    servo record are as before. *)
Theorem telemetry_reads_degrade_to_none servo_id s :
  idle s → connected (bus s) = true → st3215 (bus s) ≠ None →
  read_temperature servo_id s =
    Returns (polled (ReadTemperature servo_id) None s)
            (snd (single_read (ReadTemperature servo_id) None (world s))) ∧
  read_voltage servo_id s =
    Returns (polled (ReadVoltage servo_id) None s)
            (snd (single_read (ReadVoltage servo_id) None (world s))) ∧
  read_current servo_id s =
    Returns (polled (ReadCurrent servo_id) None s)
            (snd (single_read (ReadCurrent servo_id) None (world s))) ∧
  (∀ p w err, call p (world s) = (w, inl err) →
              ∀ none, snd (single_read p none (world s)) = none) ∧
  (∀ p w v, call p (world s) = (w, inr v) →
            ∀ none, snd (single_read p none (world s)) = v).
Proof.
  intros H Hc Hh.
  split; [exact (read_telemetry_connected (ReadTemperature servo_id) None s H Hc Hh)|].
  split; [exact (read_telemetry_connected (ReadVoltage servo_id) None s H Hc Hh)|].
  split; [exact (read_telemetry_connected (ReadCurrent servo_id) None s H Hc Hh)|].
  split; intros p w x E none; unfold single_read; rewrite E; reflexivity.
Qed.

(** X7: [ping_servo] on a connected bus calls [PingServo] once, under the
    lock, and returns the device's answer; when the call fails it logs the
    failure and returns [False] instead of raising.  Bus record and servo
    record are as before. *)
Theorem ping_servo_never_raises servo_id s :
  idle s → connected (bus s) = true → st3215 (bus s) ≠ None →
  (∀ w present,
     call (PingServo servo_id) (world s) = (w, inr present) →
     ping_servo servo_id s =
       Returns (mkSystem w (bus s) (servo s)
                  (trace s ++ [Acquire; Call (PingServo servo_id); Release]))
               present) ∧
  (∀ w err,
     call (PingServo servo_id) (world s) = (w, inl err) →
     ping_servo servo_id s =
       Returns (mkSystem w (bus s) (servo s)
                  (trace s ++ [Acquire; Call (PingServo servo_id);
                               Log Error (MPingFailed servo_id (MText err));
                               Release]))
               false).
Proof.
  unfold idle. intros H Hc Hh.
  split; intros w x E; unfold ping_servo, invoke, with_lock; rewrite H;
    expose; cbn; rewrite Hc; cbn;
    (destruct (st3215 (bus s)); [|contradiction]); cbn; rewrite E; cbn;
    rewrite (idle_bus_eta _ H), <- !app_assoc; reflexivity.
Qed.

(** X8: on a disconnected bus with the lock free, the single-attempt
    methods never reach the device.  Each takes the lock, finds the bus
    disconnected and calls [connect], which waits for the lock its caller
    holds: the call blocks with the lock held and nothing but the acquisition
    in the trace.  [read_status] blocks in its first read. *)
Theorem single_attempt_methods_block_when_disconnected servo_id s :
  idle s → connected (bus s) = false →
  ping_servo servo_id s = Hangs (stuck s) ∧
  read_temperature servo_id s = Hangs (stuck s) ∧
  read_voltage servo_id s = Hangs (stuck s) ∧
  read_current servo_id s = Hangs (stuck s) ∧
  read_status servo_id s = Hangs (stuck s) ∧
  lock_held (bus (stuck s)) = true ∧ calls (trace (stuck s)) = calls (trace s).
Proof.
  intros H Hc.
  assert (Ht : ∀ p none, read_telemetry p none s = Hangs (stuck s))
    by (intros; apply read_telemetry_disconnected; assumption).
  split.
  { unfold idle in H. unfold ping_servo, connect, with_lock, stuck. rewrite H.
    expose. cbn. rewrite Hc. reflexivity. }
  split; [exact (Ht (ReadTemperature servo_id) None)|].
  split; [exact (Ht (ReadVoltage servo_id) None)|].
  split; [exact (Ht (ReadCurrent servo_id) None)|].
  split.
  { unfold read_status. rewrite run_bind. unfold read_temperature. rewrite Ht.
    reflexivity. }
  split; [reflexivity|].
  cbn. rewrite calls_app. cbn. apply app_nil_r.
Qed.

Lemma read_status_connected servo_id s :
  idle s → connected (bus s) = true → st3215 (bus s) ≠ None →
  let s1 := polled (ReadTemperature servo_id) None s in
  let s2 := polled (ReadVoltage servo_id) None s1 in
  let s3 := polled (ReadCurrent servo_id) None s2 in
  read_status servo_id s =
    Returns s3
      (mkStatus (snd (single_read (ReadTemperature servo_id) None (world s)))
                (snd (single_read (ReadVoltage servo_id) None (world s1)))
                (snd (single_read (ReadCurrent servo_id) None (world s2)))) ∧
  bus s3 = bus s ∧ servo s3 = servo s ∧
  trace s3 = trace s ++
    [Acquire; Call (ReadTemperature servo_id); Release;
     Acquire; Call (ReadVoltage servo_id); Release;
     Acquire; Call (ReadCurrent servo_id); Release] ∧
  locked_io false
    [Acquire; Call (ReadTemperature servo_id); Release;
     Acquire; Call (ReadVoltage servo_id); Release;
     Acquire; Call (ReadCurrent servo_id); Release] = true.
Proof.
  intros H Hc Hh s1 s2 s3. split.
  - unfold read_status, read_temperature, read_voltage, read_current.
    rewrite run_bind,
      (read_telemetry_connected (ReadTemperature servo_id) None s H Hc Hh).
    fold s1.
    rewrite run_bind,
      (read_telemetry_connected (ReadVoltage servo_id) None s1 H Hc Hh).
    fold s2.
    rewrite run_bind,
      (read_telemetry_connected (ReadCurrent servo_id) None s2 H Hc Hh).
    fold s3. reflexivity.
  - split; [reflexivity|]. split; [reflexivity|]. split; [|reflexivity].
    subst s3 s2 s1. cbn. rewrite <- !app_assoc. reflexivity.
Qed.

(** X9: [read_status] on a connected bus reads temperature, voltage and
    current, in this order, each under the lock; it returns the three answers
    ([None] for a read that failed), never raises, and leaves bus record and
    servo record as they were. *)
Theorem read_status_reads_in_order servo_id s :
  idle s → connected (bus s) = true → st3215 (bus s) ≠ None →
  let s1 := polled (ReadTemperature servo_id) None s in
  let s2 := polled (ReadVoltage servo_id) None s1 in
  let s3 := polled (ReadCurrent servo_id) None s2 in
  read_status servo_id s =
    Returns s3
      (mkStatus (snd (single_read (ReadTemperature servo_id) None (world s)))
                (snd (single_read (ReadVoltage servo_id) None (world s1)))
                (snd (single_read (ReadCurrent servo_id) None (world s2)))) ∧
  bus s3 = bus s ∧ servo s3 = servo s ∧
  trace s3 = trace s ++
    [Acquire; Call (ReadTemperature servo_id); Release;
     Acquire; Call (ReadVoltage servo_id); Release;
     Acquire; Call (ReadCurrent servo_id); Release] ∧
  locked_io false
    [Acquire; Call (ReadTemperature servo_id); Release;
     Acquire; Call (ReadVoltage servo_id); Release;
     Acquire; Call (ReadCurrent servo_id); Release] = true.
Proof. apply read_status_connected. Qed.

(** X10: the bus [move_to] stores the commanded position in the cache when,
    and only when, the move went through: after a return the entry of this
    servo is the commanded position, after [ST3215BusError] the cache is as
    before.  The entries of the other servos are never touched, nor is the
    servo record; the call cannot block when the lock is free. *)
Theorem bus_move_to_caches_on_success_only i p sp ac s :
  idle s →
  match ST3215Bus.move_to i p sp ac s with
  | Returns s' _ =>
      position_cache (bus s') !! i = Some p ∧
      (∀ j, j ≠ i → position_cache (bus s') !! j = position_cache (bus s) !! j) ∧
      servo s' = servo s ∧ idle s'
  | Raises s' e =>
      position_cache (bus s') = position_cache (bus s) ∧
      servo s' = servo s ∧ idle s' ∧
      ∃ cause, e = ST3215BusError (MFailedAfter (OpMoveTo i p) 3 cause)
  | Hangs _ => False
  end.
Proof.
  intros H. rewrite bus_move_to_eq.
  pose proof (execute_with_retry_cases (OpMoveTo i p) (MoveTo i p sp ac) 3 s H) as Hc.
  destruct (_execute_with_retry _ _ 3 s) as [s1 r|s1 e|s1]; [| |contradiction].
  - destruct Hc as [(Hv & Hca & _ & Hl) _]. cbn. rewrite Hca.
    split; [apply lookup_insert_eq|].
    split; [intros j Hj; apply lookup_insert_ne; congruence|].
    split; [exact Hv | exact Hl].
  - destruct Hc as ((Hv & Hca & _ & Hl) & _ & cause & -> & _).
    split; [exact Hca|]. split; [exact Hv|]. split; [exact Hl|].
    exists cause. reflexivity.
Qed.

(** X11: what [read_position] returns is what the cache then holds: after a
    return of [Some p] the entry of this servo is [p], whether [p] came from
    the device or from the cache; after a return of [None] the cache is as
    before.  The entries of the other servos are never touched. *)
Theorem read_position_agrees_with_cache i s s' pos :
  idle s →
  read_position i s = Returns s' pos →
  (∀ p, pos = Some p → position_cache (bus s') !! i = Some p) ∧
  (pos = None → position_cache (bus s') = position_cache (bus s)) ∧
  (∀ j, j ≠ i → position_cache (bus s') !! j = position_cache (bus s) !! j).
Proof.
  intros H. rewrite read_position_eq.
  pose proof (execute_with_retry_cases (OpReadPosition i) (ReadPosition i) 3 s H) as Hc.
  destruct (_execute_with_retry _ _ 3 s) as [s1 r|s1 e|s1]; [| |contradiction].
  - destruct Hc as [(_ & Hca & _) _].
    destruct (mjoin r) as [p|]; intros [= <- <-]; cbn; rewrite ?Hca.
    + split; [intros q [= <-]; apply lookup_insert_eq|].
      split; [discriminate|]. intros j Hj. apply lookup_insert_ne. congruence.
    + split; [discriminate|]. split; reflexivity.
  - destruct Hc as ((_ & Hca & _) & _ & cause & -> & _).
    destruct (position_cache (bus s1) !! i) as [c|] eqn:Hl;
      intros [= <- <-]; cbn; rewrite ?Hca.
    + split; [intros q [= <-]; rewrite <- Hca; exact Hl|].
      split; [discriminate|]. reflexivity.
    + split; [discriminate|]. split; reflexivity.
Qed.

Lemma bus_move_to_caches_on_success_only_aux i p sp ac s :
  idle s →
  match ST3215Bus.move_to i p sp ac s with
  | Returns s' _ => position_cache (bus s') !! i = Some p ∧ idle s'
  | _ => True
  end.
Proof.
  intros H. rewrite bus_move_to_eq.
  pose proof (execute_with_retry_cases (OpMoveTo i p) (MoveTo i p sp ac) 3 s H) as Hc.
  destruct (_execute_with_retry _ _ 3 s) as [s1 r|s1 e|s1]; [|exact I..].
  destruct Hc as [(_ & Hca & _ & Hl) _]. cbn. rewrite Hca.
  split; [apply lookup_insert_eq | exact Hl].
Qed.

(** X12: the cache as last commanded position.  After a bus [move_to] of
    servo [i] to [p] has returned, a [read_position] of [i] whose three
    attempts all fail returns [p]. *)
Theorem read_position_falls_back_to_commanded_position i p sp ac s s1 s2 e :
  idle s →
  ST3215Bus.move_to i p sp ac s = Returns s1 tt →
  _execute_with_retry (OpReadPosition i) (ReadPosition i) 3 s1 = Raises s2 e →
  ∃ s3, read_position i s1 = Returns s3 (Some p) ∧
        trace s3 = trace s2 ++ [Log Warning (MUsingCached i p)].
Proof.
  intros H Hm Hr.
  pose proof (bus_move_to_caches_on_success_only_aux i p sp ac s H) as Hc.
  rewrite Hm in Hc. destruct Hc as (Hl & Hi1).
  pose proof (execute_with_retry_cases (OpReadPosition i) (ReadPosition i) 3 s1 Hi1)
    as Hx.
  rewrite read_position_eq, Hr. rewrite Hr in Hx.
  destruct Hx as ((_ & Hca & _) & _ & cause & -> & _).
  rewrite Hca, Hl. eexists. split; reflexivity.
Qed.

(** X5: when the retry wrapper returns a result, the bus is connected with
    a driver object, the reconnect counter is back at 0, and the last thing
    that happened is the call that gave the result. *)
Theorem execute_with_retry_success_state op f n s s' r :
  idle s →
  _execute_with_retry op f n s = Returns s' (Some r) →
  connected (bus s') = true ∧ st3215 (bus s') ≠ None ∧
  reconnect_attempt (bus s') = 0%nat ∧
  ∃ t, trace s' = trace s ++ t ++ [Call f].
Proof. apply retry_success_state. Qed.

Lemma ping_connected_returns i s :
  idle s → connected (bus s) = true →
  ∃ s' present, ping_servo i s = Returns s' present ∧
                bus s' = bus s ∧ servo s' = servo s.
Proof.
  unfold idle. intros H Hc.
  unfold ping_servo, invoke, with_lock. rewrite H. expose. cbn. rewrite Hc. cbn.
  destruct (st3215 (bus s)); cbn.
  - destruct (call (PingServo i) (world s)) as [w [err|b]]; cbn;
      eexists _, _; (split; [reflexivity|]); cbn;
      rewrite (idle_bus_eta _ H); split; reflexivity.
  - eexists _, _. split; [reflexivity|]. cbn.
    rewrite (idle_bus_eta _ H). split; reflexivity.
Qed.

Lemma final_then_ret {A} (m : M World A) s :
  final ((m ≫= λ _, ret tt) s) = final (m s).
Proof. rewrite run_bind. destruct (m s); reflexivity. Qed.

(** X14: the states between two calls.  A new bus has the lock free and is
    well formed (connected only with a driver object); [connect],
    [disconnect], the bus [move_to], [read_position], [enable_servo] and
    [disable_servo] end in such a state whenever they start in one, whatever
    their outcome, and so do [ping_servo] and [read_status] on a connected
    bus. *)
Theorem bus_methods_keep_settled s :
  settled s →
  settled (final (connect s)) ∧
  settled (final (disconnect s)) ∧
  (∀ i p sp ac, settled (final (ST3215Bus.move_to i p sp ac s))) ∧
  (∀ i, settled (final (read_position i s))) ∧
  (∀ i, settled (final (enable_servo i s))) ∧
  (∀ i, settled (final (disable_servo i s))) ∧
  (connected (bus s) = true →
   ∀ i, settled (final (ping_servo i s)) ∧ settled (final (read_status i s))) ∧
  (∀ (w : World) port baud v t, settled (mkSystem w (new_bus port baud) v t)).
Proof.
  intros [Hi Hwf].
  assert (Hretry : ∀ op f, settled (final (_execute_with_retry op f 3 s))).
  { intros op f. split.
    - pose proof (execute_with_retry_cases op f 3 s Hi) as Hc.
      destruct (_execute_with_retry op f 3 s); [| |contradiction]; apply Hc.
    - apply retry_loop_wf; assumption. }
  split.
  { split; [|apply connect_wf; assumption].
    destruct (connect_cases s Hi) as (s' & c & Ho & _ & _ & Hs).
    destruct Ho as [(-> & _) | (m & -> & _)]; apply Hs. }
  split.
  { split; [|apply disconnect_wf; assumption].
    destruct (disconnect_cases s Hi) as (s' & d & -> & _ & _ & Hs & _). apply Hs. }
  split.
  { intros i p sp ac. split; [|apply bus_move_to_wf; assumption].
    rewrite bus_move_to_eq. destruct (Hretry (OpMoveTo i p) (MoveTo i p sp ac)) as [Hl _].
    destruct (_execute_with_retry _ _ 3 s); exact Hl. }
  split.
  { intros i. split; [|apply read_position_wf; assumption].
    destruct (read_position_cases i s Hi) as (s' & pos & -> & _ & Hl & _). exact Hl. }
  split.
  { intros i. unfold enable_servo. rewrite final_then_ret. apply Hretry. }
  split.
  { intros i. unfold disable_servo. rewrite final_then_ret. apply Hretry. }
  split.
  { intros Hc i.
    assert (Hh : st3215 (bus s) ≠ None) by (apply Hwf; exact Hc).
    split.
    - destruct (ping_connected_returns i s Hi Hc) as (s' & b & -> & Hb & _).
      cbn. unfold settled, idle. rewrite Hb. split; assumption.
    - unfold read_status, read_temperature, read_voltage, read_current.
      set (s1 := polled (ReadTemperature i) None s).
      set (s2 := polled (ReadVoltage i) None s1).
      rewrite run_bind,
        (read_telemetry_connected (ReadTemperature i) None s Hi Hc Hh).
      fold s1.
      rewrite run_bind,
        (read_telemetry_connected (ReadVoltage i) None s1 Hi Hc Hh).
      fold s2.
      rewrite run_bind,
        (read_telemetry_connected (ReadCurrent i) None s2 Hi Hc Hh).
      cbn. split; assumption. }
  intros w port baud v t. split; [reflexivity | apply wf_bus_new].
Qed.

End MoreBusProperties.

(** X13: [get_instance] hands out one bus per (port, baud rate) pair.  The
    call always finds an instance under its key.  An instance that is
    registered is returned as it is, connection state and cache included, and
    the registry is left alone; otherwise a new, disconnected bus with an
    empty cache is registered.  Entries under other keys (another port, or the
    same port at another baud rate) are not touched, and a second call with
    the same key returns the same instance without changing the registry. *)
Theorem get_instance_is_a_singleton (port : string) (baud : Z)
    (_instances : gmap (string * Z) Bus) :
  let registry := fst (ST3215Bus.get_instance port baud _instances) in
  ∃ b,
    snd (ST3215Bus.get_instance port baud _instances) = Some b ∧
    registry !! (port, baud) = Some b ∧
    (∀ b0, _instances !! (port, baud) = Some b0 → b = b0 ∧ registry = _instances) ∧
    (_instances !! (port, baud) = None → b = new_bus port baud) ∧
    (∀ key, key ≠ (port, baud) → registry !! key = _instances !! key) ∧
    ST3215Bus.get_instance port baud registry = (registry, Some b).
Proof.
  unfold ST3215Bus.get_instance. cbn.
  destruct (_instances !! (port, baud)) as [b0|] eqn:E; cbn.
  - exists b0. rewrite E. cbn. repeat split; congruence.
  - exists (new_bus port baud). rewrite !lookup_insert_eq. cbn.
    repeat split; try congruence.
    intros key Hk. apply lookup_insert_ne. congruence.
Qed.

(* ================================================================= *)
(** ** Further properties of the servo controller *)

Section MoreServoProperties.
Context {World : Type} `{drv : Driver World}.
Implicit Types s : System World.
Import ST3215Servo.

Lemma retried_outcome op f s :
  idle s →
  match ST3215Bus._execute_with_retry op f 3 s with
  | Returns s' r =>
      servo s' = servo s ∧ idle s' ∧
      ∃ x t, r = Some x ∧ trace s' = trace s ++ t ++ [Call f]
  | Raises s' e =>
      servo s' = servo s ∧ idle s' ∧
      ∃ cause, e = ST3215BusError (MFailedAfter op 3 cause)
  | Hangs _ => False
  end.
Proof.
  intros H. pose proof (execute_with_retry_cases op f 3 s H) as Hc.
  destruct (ST3215Bus._execute_with_retry op f 3 s) as [s1 r|s1 e|s1] eqn:E;
    [| |contradiction].
  - destruct Hc as [(Hv & _ & _ & Hl) _]. split; [exact Hv|]. split; [exact Hl|].
    destruct (execute_with_retry_returns_some _ _ _ _ _ E) as [x ->].
    destruct (retry_success_state op f 3 s s1 x H E) as (_ & _ & _ & t & Ht).
    exists x, t. split; [reflexivity | exact Ht].
  - destruct Hc as ((Hv & _ & _ & Hl) & _ & cause & -> & _).
    split; [exact Hv|]. split; [exact Hl|]. exists cause. reflexivity.
Qed.

(** X15: [enable] and [disable] follow the bus.  When the retried
    [StartServo] went through, [enable] sets the enabled flag and changes
    nothing else in the servo record; when the retried [StopServo] went
    through, [disable] clears the enabled flag and the motion flag.  When the
    bus gives up, [ST3215BusError] propagates and the servo record is as it
    was.  Neither can block when the lock is free. *)
Theorem enable_and_disable_follow_the_bus s :
  idle s →
  let i := servo_id (config (servo s)) in
  match enable s with
  | Returns s' _ =>
      servo s' = set_enabled true (servo s) ∧
      ∃ t, trace s' = trace s ++ t ++ [Call (StartServo i)]
  | Raises s' e =>
      servo s' = servo s ∧
      ∃ cause, e = ST3215BusError (MFailedAfter (OpStartServo i) 3 cause)
  | Hangs _ => False
  end ∧
  match disable s with
  | Returns s' _ =>
      servo s' = set_is_moving false (set_enabled false (servo s)) ∧
      ∃ t, trace s' = trace s ++ t ++ [Call (StopServo i)]
  | Raises s' e =>
      servo s' = servo s ∧
      ∃ cause, e = ST3215BusError (MFailedAfter (OpStopServo i) 3 cause)
  | Hangs _ => False
  end.
Proof.
  intros H i. split.
  - unfold enable, ST3215Bus.enable_servo.
    rewrite run_bind. unfold gets at 1. fold i. rewrite !run_bind.
    pose proof (retried_outcome (OpStartServo i) (StartServo i) s H) as Hc.
    destruct (ST3215Bus._execute_with_retry _ _ 3 s) as [s1 r|s1 e|s1];
      [| |contradiction].
    + destruct Hc as (Hv & _ & x & t & _ & Ht). cbn. rewrite Hv.
      split; [reflexivity | exists t; exact Ht].
    + destruct Hc as (Hv & _ & Hcause). split; assumption.
  - unfold disable, ST3215Bus.disable_servo.
    rewrite run_bind. unfold gets at 1. fold i. rewrite !run_bind.
    pose proof (retried_outcome (OpStopServo i) (StopServo i) s H) as Hc.
    destruct (ST3215Bus._execute_with_retry _ _ 3 s) as [s1 r|s1 e|s1];
      [| |contradiction].
    + destruct Hc as (Hv & _ & x & t & _ & Ht).
      unfold mbind, M_bind, bind. cbn. rewrite Hv.
      split; [reflexivity | exists t; exact Ht].
    + destruct Hc as (Hv & _ & Hcause). split; assumption.
Qed.

(** X16: [_handle_shutdown] is best effort: it always returns, never raises
    and cannot block when the lock is free.  When the retried [StopServo] went
    through, the enabled flag and the motion flag are cleared; when the bus
    gave up, the servo record is as it was. *)
Theorem handle_shutdown_is_best_effort s :
  idle s →
  let i := servo_id (config (servo s)) in
  ∃ s', _handle_shutdown s = Returns s' tt ∧
        match ST3215Bus.disable_servo i s with
        | Returns _ _ => servo s' = set_is_moving false (set_enabled false (servo s))
        | Raises s1 _ => s' = s1 ∧ servo s' = servo s
        | Hangs _ => False
        end.
Proof.
  intros H i. unfold _handle_shutdown. rewrite run_try.
  unfold disable, ST3215Bus.disable_servo.
  rewrite run_bind. unfold gets at 1. fold i. rewrite !run_bind.
  pose proof (retried_outcome (OpStopServo i) (StopServo i) s H) as Hc.
  destruct (ST3215Bus._execute_with_retry _ _ 3 s) as [s1 r|s1 e|s1];
    [| |contradiction].
  - destruct Hc as (Hv & _). unfold mbind, M_bind, bind. cbn.
    eexists. split; [reflexivity|]. cbn. rewrite Hv. reflexivity.
  - destruct Hc as (Hv & _). cbn. eexists. split; [reflexivity|].
    split; [reflexivity | exact Hv].
Qed.

(** X17: [set_position] is a relabelling.  Within the limits it stores the
    position as current and as target position and returns; outside it raises
    [ValueError] and stores nothing.  In neither case does it touch the
    device, the bus record or the trace, or the motion and enabled flags. *)
Theorem set_position_only_relabels p s :
  (in_range (config (servo s)) p →
   set_position p s =
     Returns (mkSystem (world s) (bus s)
                (set_target_position (Some p)
                   (set_current_position (Some p) (servo s)))
                (trace s)) tt) ∧
  (¬ in_range (config (servo s)) p →
   ∃ m, set_position p s = Raises s (ValueError m)) ∧
  world (final (set_position p s)) = world s ∧
  bus (final (set_position p s)) = bus s ∧
  trace (final (set_position p s)) = trace s ∧
  is_moving (servo (final (set_position p s))) = is_moving (servo s) ∧
  enabled (servo (final (set_position p s))) = enabled (servo s).
Proof.
  unfold set_position. rewrite run_bind.
  destruct (validate_position_cases p s) as [[Hp ->] | [Hn [m ->]]].
  - split; [intros _; reflexivity|]. split; [intros Hc; contradiction|].
    repeat split.
  - split; [intros Hc; contradiction|]. split; [intros _; exists m; reflexivity|].
    repeat split.
Qed.

(** X18: the connect phase.  Started with the lock free, [_handle_connect]
    cannot block, and the only exception that leaves it is the host's
    [command_error] with "Failed to initialize <name>: <cause>"; the servo
    record is then as it was, and the cause is either the message of the
    failed [connect] or "Servo ID <id> not found on <port>" after a ping that
    answered [False], in which case no position has been read.  When it
    returns, [connect] and the ping have succeeded and the position has been
    read: current and target position are both the value that
    [read_position] returned, and the servo record is untouched when it
    returned [None]. *)
Theorem handle_connect_reports_command_errors s :
  idle s →
  let c := config (servo s) in
  let i := servo_id c in
  match _handle_connect s with
  | Returns s' _ =>
      ∃ sa sb s1 pos,
        ST3215Bus.connect s = Returns sa tt ∧
        ST3215Bus.ping_servo i sa = Returns sb true ∧
        ST3215Bus.read_position i sb = Returns s1 pos ∧
        world s' = world s1 ∧ bus s' = bus s1 ∧ trace s' = trace s1 ∧
        servo s' =
          match pos with
          | Some p =>
              set_target_position (Some p) (set_current_position (Some p) (servo s))
          | None => servo s
          end
  | Raises s' e =>
      servo s' = servo s ∧
      ((∃ e0, ST3215Bus.connect s = Raises s' e0 ∧
              e = CommandError (MInitFailed (name c) (str e0))) ∨
       (∃ sa, ST3215Bus.connect s = Returns sa tt ∧
              ST3215Bus.ping_servo i sa = Returns s' false ∧
              e = CommandError
                    (MInitFailed (name c) (MNotFound i (serial_port (bus s'))))))
  | Hangs _ => False
  end ∧
  (∀ sa e,
     ST3215Bus.connect s = Raises sa e →
     _handle_connect s = Raises sa (CommandError (MInitFailed (name c) (str e)))) ∧
  (∀ sa sb,
     ST3215Bus.connect s = Returns sa tt →
     ST3215Bus.ping_servo i sa = Returns sb false →
     _handle_connect s =
       Raises sb (CommandError
                    (MInitFailed (name c) (MNotFound i (serial_port (bus sb)))))).
Proof.
  intros H c i.
  pose proof (handle_connect_eq s) as Heq. cbv zeta in Heq. fold c i in Heq.
  split; [|split].
  - rewrite Heq.
    destruct (connect_cases s H) as (sa & t & Ho & _ & _ & Hs).
    destruct Ho as [(Hco & Hc & _) | (m & Hco & _)]; rewrite Hco.
    + assert (Hia : idle sa) by apply Hs.
      destruct (ping_connected_returns i sa Hia Hc) as (sb & present & Hpg & Hb & Hv).
      rewrite Hpg.
      assert (Hib : idle sb) by (unfold idle; rewrite Hb; exact Hia).
      destruct Hs as (Hvs & _).
      destruct present.
      * destruct (read_position_cases i sb Hib) as (s1 & pos & Hrd & Hv1 & _).
        rewrite Hrd.
        destruct pos as [pos|]; exists sa, sb, s1; eexists;
          (split; [reflexivity|]); (split; [exact Hpg|]); (split; [exact Hrd|]);
          cbn; rewrite ?Hv1, ?Hv, ?Hvs;
          (split; [reflexivity|]); (split; [reflexivity|]); split; reflexivity.
      * cbn. rewrite Hv, Hvs. split; [reflexivity|]. right.
        exists sa. split; [reflexivity|]. split; [exact Hpg | reflexivity].
    + destruct Hs as (Hvs & _). split; [exact Hvs|]. left.
      eexists. split; reflexivity.
  - intros sa e Hc. rewrite Heq, Hc. reflexivity.
  - intros sa sb Hc Hp. rewrite Heq, Hc, Hp. reflexivity.
Qed.

#[local] Arguments Z.abs : simpl never.
#[local] Arguments Z.gtb : simpl never.
#[local] Arguments Z.geb : simpl never.

(** [read_status] on a disconnected bus blocks in its first read. *)
Lemma read_status_disconnected servo_id s :
  idle s → connected (bus s) = false →
  ST3215Bus.read_status servo_id s = Hangs (stuck s).
Proof.
  intros Hi Hc. unfold ST3215Bus.read_status, ST3215Bus.read_temperature.
  rewrite run_bind, (read_telemetry_disconnected _ _ s Hi Hc). reflexivity.
Qed.

(** X21: a poll tick with a telemetry round (the float difference
    [eventtime - last_status_update] is above 5.0), on a bus that is
    connected after the position read.  The tick returns the float sum
    [eventtime + status_update_interval].  It stores the three telemetry
    answers, also a [None] of a read that failed, which replaces an earlier
    temperature; it runs the temperature guard on the new value and swallows
    its exception, so that a critical temperature leaves the shutdown request
    in the trace while the tick itself ends normally, with [last_error]
    cleared and [last_status_update] set to [eventtime]. *)
Theorem poll_tick_telemetry_round eventtime s s1 pos :
  idle s →
  (5 <? eventtime - last_status_update (servo s))%float = true →
  let i := servo_id (config (servo s)) in
  ST3215Bus.read_position i s = Returns s1 pos →
  connected (bus s1) = true → st3215 (bus s1) ≠ None →
  let v1 := observed pos (servo s) in
  ∃ s2 status s',
    ST3215Bus.read_status i (mkSystem (world s1) (bus s1) v1 (trace s1)) =
      Returns s2 status ∧
    ST3215Bus.temperature status =
      snd (single_read (ReadTemperature i) None (world s1)) ∧
    _update_status_timer eventtime s =
      Returns s' (eventtime + status_update_interval (config (servo s)))%float ∧
    world s' = world s2 ∧ bus s' = bus s1 ∧
    servo s' =
      set_last_error None (set_last_status_update eventtime (told status v1)) ∧
    trace s' = trace s2 ++ guard_events (told status v1).
Proof.
  intros Hi Hq i Hr Hc Hh v1.
  destruct (read_position_cases i s Hi) as (s1' & pos' & Hr' & Hv & Hi1 & _).
  rewrite Hr in Hr'. injection Hr' as <- <-.
  set (u := mkSystem (world s1) (bus s1) v1 (trace s1)).
  destruct (read_status_connected i u Hi1 Hc Hh) as (Hrs & Hb & Hsv & _).
  cbv zeta in Hrs, Hb, Hsv.
  set (s2 := polled (ReadCurrent i) None
               (polled (ReadVoltage i) None (polled (ReadTemperature i) None u)))
    in *.
  match type of Hrs with _ = Returns _ ?st => set (status := st) in * end.
  pose proof (update_status_timer_read eventtime s s1 pos Hr Hv) as Ht.
  cbv zeta in Ht. fold i in Ht. rewrite Hq in Ht. fold v1 in Ht. fold u in Ht.
  rewrite Hrs in Ht.
  eexists s2, status, _. split; [exact Hrs|]. split; [reflexivity|].
  split; [exact Ht|]. cbn.
  split; [reflexivity|]. split; [reflexivity|]. split; reflexivity.
Qed.

(** X19: what a poll tick can do, started between two calls.  It never
    raises.  It blocks exactly when a telemetry round is due (the float
    difference [eventtime - last_status_update] is above 5.0) and the bus is
    disconnected after the position read; the blocked tick holds the lock,
    has stored the position and has touched neither [last_error] nor
    [last_status_update].  In every other case it returns the float sum
    [eventtime + status_update_interval] with [last_error] cleared: the
    [except] branch that would record an error is never taken.  The bus is
    then between two calls again. *)
Theorem poll_tick_returns_or_blocks eventtime s :
  idle s → wf_bus (bus s) →
  let i := servo_id (config (servo s)) in
  let due := (5 <? eventtime - last_status_update (servo s))%float in
  ∃ s1 pos,
    ST3215Bus.read_position i s = Returns s1 pos ∧
    match _update_status_timer eventtime s with
    | Returns s' wake =>
        (due = true → connected (bus s1) = true) ∧
        wake = (eventtime + status_update_interval (config (servo s)))%float ∧
        last_error (servo s') = None ∧ bus s' = bus s1 ∧ settled s'
    | Raises _ _ => False
    | Hangs s' =>
        due = true ∧ connected (bus s1) = false ∧
        s' = stuck (mkSystem (world s1) (bus s1) (observed pos (servo s)) (trace s1))
    end.
Proof.
  intros Hi Hwf i due.
  destruct (read_position_cases i s Hi) as (s1 & pos & Hr & Hv & Hi1 & _).
  pose proof (read_position_wf i s Hi Hwf) as Hwf1. rewrite Hr in Hwf1. cbn in Hwf1.
  exists s1, pos. split; [exact Hr|].
  pose proof (update_status_timer_read eventtime s s1 pos Hr Hv) as Ht.
  cbv zeta in Ht. fold i in Ht. fold due in Ht. rewrite Ht. clear Ht.
  set (u := mkSystem (world s1) (bus s1) (observed pos (servo s)) (trace s1)).
  destruct due eqn:Hdue.
  - destruct (connected (bus s1)) eqn:Hc.
    + destruct (read_status_connected i u Hi1 Hc (Hwf1 Hc)) as (-> & Hb & _).
      cbv zeta in Hb. cbn [final].
      split; [reflexivity|]. split; [reflexivity|]. split; [reflexivity|].
      cbn. split; [reflexivity|]. split; [exact Hi1 | exact Hwf1].
    + rewrite (read_status_disconnected i u Hi1 Hc).
      split; [reflexivity|]. split; reflexivity.
  - split; [discriminate|]. split; [reflexivity|]. split; [reflexivity|].
    cbn. split; [reflexivity|]. split; [exact Hi1 | exact Hwf1].
Qed.

(** X20: a poll tick between two telemetry rounds (the float difference
    [eventtime - last_status_update] is not above 5.0), started with the lock
    free.  It returns the float sum [eventtime + status_update_interval],
    clears [last_error] and leaves the bus as the position read left it.  A
    position that was read, from the device or from the cache, becomes the
    current position, and the motion flag becomes "more than 5 units away
    from the target"; without a target the flag is left alone, and when the
    read gave nothing the tracked positions and the flag are left alone. *)
Theorem poll_tick_between_telemetry_rounds eventtime s :
  idle s →
  (5 <? eventtime - last_status_update (servo s))%float = false →
  ∃ s1 pos s',
    ST3215Bus.read_position (servo_id (config (servo s))) s = Returns s1 pos ∧
    _update_status_timer eventtime s =
      Returns s' (eventtime + status_update_interval (config (servo s)))%float ∧
    world s' = world s1 ∧ bus s' = bus s1 ∧ trace s' = trace s1 ∧
    servo s' = set_last_error None (observed pos (servo s)) ∧
    last_error (servo s') = None ∧
    (∀ p, pos = Some p →
       current_position (servo s') = Some p ∧
       (∀ target, target_position (servo s) = Some target →
                  is_moving (servo s') = (Z.abs (p - target) >? 5)) ∧
       (target_position (servo s) = None →
        is_moving (servo s') = is_moving (servo s))) ∧
    (pos = None → servo s' = set_last_error None (servo s)).
Proof.
  intros Hi Hq.
  destruct (update_status_timer_position eventtime s Hi Hq) as (s1 & pos & Hr & Ht).
  eexists s1, pos, _. split; [exact Hr|]. split; [exact Ht|]. cbn.
  split; [reflexivity|]. split; [reflexivity|]. split; [reflexivity|].
  split; [reflexivity|]. split; [reflexivity|]. split.
  - intros p ->. unfold observed. cbn.
    destruct (target_position (servo s)) as [tg|]; cbn.
    + split; [reflexivity|]. split; [intros target [= <-]; reflexivity | discriminate].
    + split; [reflexivity|]. split; [discriminate | reflexivity].
  - intros ->. reflexivity.
Qed.

End MoreServoProperties.

(* ================================================================= *)
(** ** Further runs on the simulated bus *)

Section MoreRuns.
Import Simulated.

Lemma connect_opens_the_port_once_witness :
  idle offline ∧
  ∃ s', ST3215Bus.connect offline = Returns s' tt ∧
        connected (bus s') = true ∧
        st3215 (bus s') = Some (ST3215 "/dev/ttyUSB0") ∧
        trace s' = [Acquire; Open "/dev/ttyUSB0"; Release].
Proof.
  split; [reflexivity|].
  destruct (connect_opens_the_port_once offline eq_refl) as [_ Hd].
  destruct (Hd eq_refl) as [Hok _].
  destruct (Hok bench eq_refl) as (s' & Hc & _ & _ & Hcon & Hh & _ & _ & _ & Ht).
  exists s'. exact (conj Hc (conj Hcon (conj Hh Ht))).
Defined.

Lemma disconnect_closes_the_port_once_witness :
  idle at_rest ∧
  ∃ s', ST3215Bus.disconnect at_rest = Returns s' tt ∧
        st3215 (bus s') = None ∧
        ST3215Bus.disconnect s' = Returns (logged [Acquire; Release] s') tt.
Proof.
  split; [reflexivity|].
  destruct (disconnect_closes_the_port_once at_rest eq_refl)
    as (s' & Hd & _ & Hh & _ & _ & _ & _ & Hagain).
  exists s'. exact (conj Hd (conj Hh Hagain)).
Defined.

Lemma execute_with_retry_is_confined_witness :
  idle three_faults ∧
  position_cache
    (bus (final (ST3215Bus._execute_with_retry (OpReadPosition 1) (ReadPosition 1) 3
                   three_faults))) =
  position_cache (bus three_faults).
Proof.
  split; [reflexivity|].
  destruct (execute_with_retry_is_confined (OpReadPosition 1) (ReadPosition 1) 3
              three_faults eq_refl) as (_ & _ & _ & Hca & _).
  exact Hca.
Defined.

Lemma retry_attempts_and_backoffs_are_bounded_witness :
  idle three_faults ∧
  ∃ s' e t,
    ST3215Bus._execute_with_retry (OpReadPosition 1) (ReadPosition 1) 3 three_faults =
      Raises s' e ∧
    trace s' = trace three_faults ++ t ∧
    sleeps t = 2%nat ∧ (length (calls t) ≤ 3)%nat.
Proof.
  split; [reflexivity|].
  pose (s' := final (ST3215Bus._execute_with_retry (OpReadPosition 1) (ReadPosition 1) 3
                       three_faults)).
  pose (e := ST3215BusError
               (MFailedAfter (OpReadPosition 1) 3 (MText "no status packet"))).
  assert (E : ST3215Bus._execute_with_retry (OpReadPosition 1) (ReadPosition 1) 3
                three_faults = Raises s' e)
    by (vm_compute; reflexivity).
  pose proof (retry_attempts_and_backoffs_are_bounded (OpReadPosition 1)
                (ReadPosition 1) 3 three_faults eq_refl) as H.
  rewrite E in H. destruct H as (t & Ht & _ & Hs & Hc).
  exists s', e, t. exact (conj E (conj Ht (conj Hs Hc))).
Defined.

Lemma execute_with_retry_success_state_witness :
  idle two_faults ∧
  ∃ s', ST3215Bus._execute_with_retry (OpReadPosition 1) (ReadPosition 1) 3 two_faults =
          Returns s' (Some (Some 1234)) ∧
        connected (bus s') = true ∧ reconnect_attempt (bus s') = 0%nat.
Proof.
  split; [reflexivity|].
  pose (s' := final (ST3215Bus._execute_with_retry (OpReadPosition 1) (ReadPosition 1) 3
                       two_faults)).
  assert (E : ST3215Bus._execute_with_retry (OpReadPosition 1) (ReadPosition 1) 3
                two_faults = Returns s' (Some (Some 1234)))
    by (vm_compute; reflexivity).
  destruct (execute_with_retry_success_state (OpReadPosition 1) (ReadPosition 1) 3
              two_faults s' (Some 1234) eq_refl E) as (Hc & _ & Hn & _).
  exists s'. exact (conj E (conj Hc Hn)).
Defined.

Lemma telemetry_reads_degrade_to_none_witness :
  idle at_rest ∧ connected (bus at_rest) = true ∧ st3215 (bus at_rest) ≠ None ∧
  ST3215Bus.read_temperature 1 at_rest =
    Returns (polled (ReadTemperature 1) None at_rest)
            (snd (single_read (ReadTemperature 1) None (world at_rest))).
Proof.
  assert (Hh : st3215 (bus at_rest) ≠ None) by discriminate.
  split; [reflexivity|]. split; [reflexivity|]. split; [exact Hh|].
  destruct (telemetry_reads_degrade_to_none 1 at_rest eq_refl eq_refl Hh) as [Ht _].
  exact Ht.
Defined.

Lemma ping_servo_never_raises_witness :
  idle at_rest ∧ connected (bus at_rest) = true ∧ st3215 (bus at_rest) ≠ None ∧
  ST3215Bus.ping_servo 1 at_rest =
    Returns (mkSystem bench (bus at_rest) (servo at_rest)
               (trace at_rest ++ [Acquire; Call (PingServo 1); Release]))
            true.
Proof.
  assert (Hh : st3215 (bus at_rest) ≠ None) by discriminate.
  split; [reflexivity|]. split; [reflexivity|]. split; [exact Hh|].
  destruct (ping_servo_never_raises 1 at_rest eq_refl eq_refl Hh) as [Hok _].
  exact (Hok bench true eq_refl).
Defined.

Lemma single_attempt_methods_block_when_disconnected_witness :
  idle offline ∧ connected (bus offline) = false ∧
  ST3215Bus.ping_servo 1 offline = Hangs (stuck offline) ∧
  ST3215Bus.read_status 1 offline = Hangs (stuck offline).
Proof.
  split; [reflexivity|]. split; [reflexivity|].
  destruct (single_attempt_methods_block_when_disconnected 1 offline eq_refl eq_refl)
    as (Hp & _ & _ & _ & Hs & _).
  exact (conj Hp Hs).
Defined.

Lemma read_status_reads_in_order_witness :
  idle at_rest ∧ connected (bus at_rest) = true ∧ st3215 (bus at_rest) ≠ None ∧
  ∃ s', ST3215Bus.read_status 1 at_rest =
          Returns s' (ST3215Bus.mkStatus (Some 40) (Some (12 # 1)%Q) (Some (100 # 1)%Q)).
Proof.
  assert (Hh : st3215 (bus at_rest) ≠ None) by discriminate.
  split; [reflexivity|]. split; [reflexivity|]. split; [exact Hh|].
  destruct (read_status_reads_in_order 1 at_rest eq_refl eq_refl Hh) as [Hr _].
  eexists. exact Hr.
Defined.

Lemma bus_move_to_caches_on_success_only_witness :
  idle at_rest ∧
  position_cache (bus (final (ST3215Bus.move_to 1 2048 0 0 at_rest))) !! 1 = Some 2048.
Proof.
  split; [reflexivity|].
  pose proof (bus_move_to_caches_on_success_only 1 2048 0 0 at_rest eq_refl) as H.
  assert (E : ST3215Bus.move_to 1 2048 0 0 at_rest =
              Returns (final (ST3215Bus.move_to 1 2048 0 0 at_rest)) tt)
    by (vm_compute; reflexivity).
  rewrite E in H. destruct H as [H _]. exact H.
Defined.

Lemma read_position_agrees_with_cache_witness :
  idle three_faults ∧
  ∃ s', ST3215Bus.read_position 1 three_faults = Returns s' (Some 2048) ∧
        position_cache (bus s') !! 1 = Some 2048.
Proof.
  split; [reflexivity|].
  pose (s' := final (ST3215Bus.read_position 1 three_faults)).
  assert (E : ST3215Bus.read_position 1 three_faults = Returns s' (Some 2048))
    by (vm_compute; reflexivity).
  destruct (read_position_agrees_with_cache 1 three_faults s' (Some 2048) eq_refl E)
    as [H _].
  exists s'. exact (conj E (H 2048 eq_refl)).
Defined.

Lemma read_position_falls_back_to_commanded_position_witness :
  idle move_fails ∧
  ∃ s1 s3, ST3215Bus.move_to 1 2048 0 0 move_fails = Returns s1 tt ∧
           ST3215Bus.read_position 1 s1 = Returns s3 (Some 2048).
Proof.
  split; [reflexivity|].
  pose (s1 := final (ST3215Bus.move_to 1 2048 0 0 move_fails)).
  pose (s2 := final (ST3215Bus._execute_with_retry (OpReadPosition 1) (ReadPosition 1) 3
                       s1)).
  assert (Em : ST3215Bus.move_to 1 2048 0 0 move_fails = Returns s1 tt)
    by (vm_compute; reflexivity).
  assert (Er : ST3215Bus._execute_with_retry (OpReadPosition 1) (ReadPosition 1) 3 s1 =
               Raises s2 (ST3215BusError
                            (MFailedAfter (OpReadPosition 1) 3
                               (MText "no status packet"))))
    by (vm_compute; reflexivity).
  destruct (read_position_falls_back_to_commanded_position 1 2048 0 0 move_fails
              s1 s2 _ eq_refl Em Er) as (s3 & Hr & _).
  exists s1, s3. exact (conj Em Hr).
Defined.

Lemma bus_methods_keep_settled_witness :
  settled at_rest ∧ settled (final (ST3215Bus.disconnect at_rest)) ∧
  settled (final (ST3215Bus.read_position 1 at_rest)).
Proof.
  assert (H : settled at_rest) by (split; [reflexivity | intros _; discriminate]).
  split; [exact H|].
  destruct (bus_methods_keep_settled at_rest H) as (_ & Hd & _ & Hr & _).
  exact (conj Hd (Hr 1)).
Defined.

Lemma enable_and_disable_follow_the_bus_witness :
  idle at_rest ∧
  enabled (servo (final (ST3215Servo.enable at_rest))) = true.
Proof.
  split; [reflexivity|].
  destruct (enable_and_disable_follow_the_bus at_rest eq_refl) as [H _].
  assert (E : ST3215Servo.enable at_rest =
              Returns (final (ST3215Servo.enable at_rest)) tt)
    by (vm_compute; reflexivity).
  rewrite E in H. destruct H as [H _]. rewrite H. reflexivity.
Defined.

Lemma handle_shutdown_is_best_effort_witness :
  idle at_rest ∧ ∃ s', ST3215Servo._handle_shutdown at_rest = Returns s' tt.
Proof.
  split; [reflexivity|].
  destruct (handle_shutdown_is_best_effort at_rest eq_refl) as (s' & H & _).
  exists s'. exact H.
Defined.

Lemma handle_connect_reports_command_errors_witness :
  idle offline ∧
  ∃ s' sa sb s1 pos,
    ST3215Servo._handle_connect offline = Returns s' tt ∧
    ST3215Bus.connect offline = Returns sa tt ∧
    ST3215Bus.ping_servo 1 sa = Returns sb true ∧
    ST3215Bus.read_position 1 sb = Returns s1 pos ∧
    servo s' = match pos with
               | Some p =>
                   set_target_position (Some p)
                     (set_current_position (Some p) (servo offline))
               | None => servo offline
               end ∧
    current_position (servo s') = Some 1234 ∧
    target_position (servo s') = Some 1234.
Proof.
  split; [reflexivity|].
  pose (s' := final (ST3215Servo._handle_connect offline)).
  assert (E : ST3215Servo._handle_connect offline = Returns s' tt)
    by (vm_compute; reflexivity).
  assert (Hcur : current_position (servo s') = Some 1234) by (vm_compute; reflexivity).
  assert (Htg : target_position (servo s') = Some 1234) by (vm_compute; reflexivity).
  pose proof (handle_connect_reports_command_errors offline eq_refl) as [H _].
  rewrite E in H.
  destruct H as (sa & sb & s1 & pos & Ha & Hb & Hc & _ & _ & _ & Hv).
  exists s', sa, sb, s1, pos.
  exact (conj E (conj Ha (conj Hb (conj Hc (conj Hv (conj Hcur Htg)))))).
Defined.

Lemma poll_tick_returns_or_blocks_witness :
  idle unplugged ∧ wf_bus (bus unplugged) ∧
  ∃ s1 pos s',
    ST3215Bus.read_position 1 unplugged = Returns s1 pos ∧
    connected (bus s1) = false ∧
    ST3215Servo._update_status_timer 10 unplugged = Hangs s' ∧
    lock_held (bus s') = true ∧
    last_error (servo s') = last_error (servo unplugged).
Proof.
  assert (Hw : wf_bus (bus unplugged)) by (intros _; discriminate).
  split; [reflexivity|]. split; [exact Hw|].
  pose (s' := final (ST3215Servo._update_status_timer 10 unplugged)).
  assert (E : ST3215Servo._update_status_timer 10 unplugged = Hangs s')
    by (vm_compute; reflexivity).
  destruct (poll_tick_returns_or_blocks 10 unplugged eq_refl Hw)
    as (s1 & pos & Hr & H).
  rewrite E in H. destruct H as (_ & Hc & Hs).
  exists s1, pos, s'. split; [exact Hr|]. split; [exact Hc|]. split; [exact E|].
  split; reflexivity.
Defined.

Lemma poll_tick_between_telemetry_rounds_witness :
  idle rounded ∧
  (5 <? 5.7 - last_status_update (servo rounded))%float = false ∧
  ∃ s', ST3215Servo._update_status_timer 5.7 rounded = Returns s' (5.7 + 1)%float ∧
        last_error (servo s') = None ∧
        current_position (servo s') = Some 1234 ∧
        last_status_update (servo s') = 0.7%float.
Proof.
  split; [reflexivity|]. split; [reflexivity|].
  destruct (poll_tick_between_telemetry_rounds 5.7 rounded eq_refl eq_refl)
    as (s1 & pos & s' & Hr & Ht & _ & _ & _ & Hv & He & _).
  assert (Er : ST3215Bus.read_position 1 rounded =
               Returns (final (ST3215Bus.read_position 1 rounded)) (Some 1234))
    by (vm_compute; reflexivity).
  assert (Hr' : ST3215Bus.read_position 1 rounded = Returns s1 pos) by exact Hr.
  rewrite Er in Hr'. injection Hr' as <- <-.
  exists s'. split; [exact Ht|]. split; [exact He|].
  rewrite Hv. split; reflexivity.
Defined.

Lemma poll_tick_telemetry_round_witness :
  idle feverish ∧
  (5 <? 10 - last_status_update (servo feverish))%float = true ∧
  ∃ s', ST3215Servo._update_status_timer 10 feverish = Returns s' (10 + 1)%float ∧
        cached_temperature (servo s') = Some 90 ∧
        last_status_update (servo s') = 10%float.
Proof.
  split; [reflexivity|]. split; [reflexivity|].
  pose (s1 := final (ST3215Bus.read_position 1 feverish)).
  assert (Er : ST3215Bus.read_position 1 feverish = Returns s1 (Some 1234))
    by (vm_compute; reflexivity).
  assert (Hh : st3215 (bus s1) ≠ None) by discriminate.
  destruct (poll_tick_telemetry_round 10 feverish s1 (Some 1234) eq_refl eq_refl Er
              eq_refl Hh) as (s2 & status & s' & _ & Hte & Ht & _ & _ & Hv & _).
  exists s'. split; [exact Ht|]. rewrite Hv. cbn. split; [|reflexivity].
  rewrite Hte. reflexivity.
Defined.

(** The tick of the witness above, run: the device is at 90 degrees, the
    guard asks for the shutdown, and the tick ends normally. *)
Example poll_tick_requests_shutdown :
  ∃ s', ST3215Servo._update_status_timer 10 feverish = Returns s' (10 + 1)%float ∧
        cached_temperature (servo s') = Some 90 ∧
        last_error (servo s') = None ∧
        InvokeShutdown (MTemperatureCritical "st3215 arm" 90) ∈ trace s'.
Proof.
  eexists. split; [vm_compute; reflexivity|].
  split; [reflexivity|]. split; [reflexivity|].
  cbn. set_solver.
Qed.

(** The timer computes in binary64.  With [last_status_update] at 0.7 a tick
    at 5.7 runs no telemetry round, since the float difference is 5.0 and
    not above it; and a tick at 0.2 with an interval of 0.1 asks to be woken
    at 0.30000000000000004. *)
Example poll_tick_rounds_as_the_interpreter_does :
  (5.7 - 0.7 =? 5)%float = true ∧
  cached_temperature
    (servo (final (ST3215Servo._update_status_timer 5.7 rounded))) = None ∧
  (∃ s', ST3215Servo._update_status_timer 0.2 brisk =
           Returns s' 0.30000000000000004%float) ∧
  (0.30000000000000004 =? 0.3)%float = false.
Proof.
  split; [reflexivity|]. split; [vm_compute; reflexivity|].
  split; [eexists; vm_compute; reflexivity | reflexivity].
Qed.

End MoreRuns.
